(** * AIoD REST API: dataset converter, schemas and relation resolution

    A shallow embedding of [src/converters/dataset_converter.py] and
    [src/schemas.py], with the parts of the persistence layer the converter
    talks to (the session, its tables and the statements it executes). *)

From Stdlib Require Import Ascii.
From stdpp Require Import gmap strings list pretty.

(** ** Python values that meet in one collection

    The identifier sets of a canonical dataset are [Set[str]], while the
    primary key of an ORM row is an integer ([AIoDDataset.id : int | None],
    [orm.id = aiod.id], and the tests address rows by the integers the store
    assigned).  Both kinds of value end up in one Python [set] in
    [_retrieve_related_objects_by_ids], so the two are kept apart here as
    Python keeps them apart: a [str] is never equal to an [int]. *)
Inductive pyval : Type :=
  | PyStr (s : string)
  | PyInt (n : Z).

#[global] Instance pyval_eq_dec : EqDecision pyval.
Proof. solve_decision. Defined.

Definition pyval_to_sum (v : pyval) : string + Z :=
  match v with PyStr s => inl s | PyInt n => inr n end.

Definition pyval_of_sum (x : string + Z) : pyval :=
  match x with inl s => PyStr s | inr n => PyInt n end.

#[global] Instance pyval_countable : Countable pyval.
Proof.
  apply (inj_countable' pyval_to_sum pyval_of_sum).
  by intros [].
Defined.

(** [str(v)], which is also what pydantic's string validator makes of an
    integer. *)
Definition py_str (v : pyval) : string :=
  match v with
  | PyStr s => s
  | PyInt n => pretty n
  end.

(** One entry of pydantic's error report: the path of the field (names, and
    indices into lists), the message, the error type, and the limit the value
    was checked against. *)
Record ErrorEntry : Type := mkErrorEntry {
  loc : list pyval;
  msg : string;
  type_ : string;
  limit_value : option nat
}.

#[global] Instance ErrorEntry_eq_dec : EqDecision ErrorEntry.
Proof. solve_decision. Defined.

(** Python exceptions raised on the paths modelled here. *)
Inductive Exception : Type :=
  | HTTPException (status_code : nat) (detail : string)
  | ValidationError (errors : list ErrorEntry)
  | TypeError (what : string).

(** [sep.join(items)]: every item has to be a [str]. *)
Fixpoint str_join (sep : string) (items : list pyval) : Exception + string :=
  match items with
  | [] => inr ""
  | PyInt _ :: _ => inl (TypeError "sequence item: expected str instance, int found")
  | PyStr s :: rest =>
      match rest with
      | [] => inr s
      | _ :: _ =>
          match str_join sep rest with
          | inl e => inl e
          | inr tail => inr (s +:+ sep +:+ tail)
          end
      end
  end.

(** The same on a list of strings, for stating what a message enumerates. *)
Fixpoint join (sep : string) (items : list string) : string :=
  match items with
  | [] => ""
  | [s] => s
  | s :: rest => s +:+ sep +:+ join sep rest
  end.

(** ** ORM rows *)

Definition datetime := Z.

(** The classes a relation can be resolved against ([cls : Type[T]]). *)
Inductive OrmClass : Type :=
  | ClsOrmDataset
  | ClsOrmPublication.

#[global] Instance OrmClass_eq_dec : EqDecision OrmClass.
Proof. solve_decision. Defined.

(** An ORM object loaded from a table.  The converter reads nothing but
    [.id] from the objects a relation holds, so a loaded object is the
    reference to its row: the class and the primary key. *)
Record Related : Type := mkRelated {
  rel_cls : OrmClass;
  rel_id : Z
}.

#[global] Instance Related_eq_dec : EqDecision Related.
Proof. solve_decision. Defined.

(** A row of a shared lookup table (license, keyword, alternate name,
    measured value): the identity of the row and its natural key. *)
Record Row (K : Type) : Type := mkRow {
  row_id : nat;
  row_key : K
}.
Arguments mkRow {K} _ _.
Arguments row_id {K} _.
Arguments row_key {K} _.

#[global] Instance Row_eq_dec {K} `{EqDecision K} : EqDecision (Row K).
Proof. solve_decision. Defined.

Abbreviation MeasuredKey := (option string * option string)%type.

Record OrmDataDownload : Type := mkOrmDataDownload {
  dd_content_url : string;
  dd_content_size_kb : option Z;
  dd_description : option string;
  dd_name : option string;
  dd_encoding_format : option string
}.

Record OrmPublication : Type := mkOrmPublication {
  pub_title : option string;
  pub_url : option string
}.

Record OrmDataset : Type := mkOrmDataset {
  orm_id : option Z;
  orm_description : string;
  orm_name : string;
  orm_node : string;
  orm_node_specific_identifier : string;
  orm_same_as : string;
  orm_creator : option string;
  orm_date_modified : option datetime;
  orm_date_published : option datetime;
  orm_funder : option string;
  orm_is_accessible_for_free : option bool;
  orm_issn : option string;
  orm_size : option Z;
  orm_spatial_coverage : option string;
  orm_temporal_coverage_from : option datetime;
  orm_temporal_coverage_to : option datetime;
  orm_version : option string;
  orm_license : option (Row string);
  orm_has_parts : list Related;
  orm_is_part : list Related;
  orm_alternate_names : list (Row string);
  orm_citations : list Related;
  orm_distributions : list OrmDataDownload;
  orm_keywords : list (Row string);
  orm_measured_values : list (Row MeasuredKey)
}.

(** ** The session *)

(** A statement [select(cls).where(cls.id.in_(ids))]. *)
Record Select : Type := mkSelect {
  sel_cls : OrmClass;
  sel_ids : gset string
}.

(** *** How the database reads a string as a key

    [cls.id] is an integer column and the parameters of [in_] are strings:
    the comparison is numeric, after the database has read each string as a
    number.  Every engine reads the decimal text of an integer as that
    integer.  What it makes of any other string is its own affair (SQLite
    reads ["01"], [" 1"], ["+1"] and ["1.0"] as 1, and ["abc"] as no key at
    all), and is a parameter of the session: [dialect s x] is the key that
    the string [x] compares equal to, if there is one. *)

(** The place of a character in a string, counted from 0. *)
Fixpoint position (c : ascii) (s : string) : option N :=
  match s with
  | EmptyString => None
  | String d rest =>
      if Ascii.eqb c d then Some 0%N else N.succ <$> position c rest
  end.

(** The value of a decimal digit. *)
Definition digit_of (c : ascii) : option N := position c "0123456789".

Fixpoint read_digits (acc : N) (s : string) : option N :=
  match s with
  | EmptyString => Some acc
  | String c rest =>
      match digit_of c with
      | Some d => read_digits (acc * 10 + d) rest
      | None => None
      end
  end.

Definition read_unsigned (s : string) : option Z :=
  match s with
  | EmptyString => None
  | String _ _ => Z.of_N <$> read_digits 0 s
  end.

(** Digits with an optional sign in front; zeros in front are allowed. *)
Definition read_decimal (x : string) : option Z :=
  match read_unsigned x with
  | Some n => Some n
  | None =>
      match x with
      | EmptyString => None
      | String sign rest =>
          if Ascii.eqb sign "-" then Z.opp <$> read_unsigned rest
          else if Ascii.eqb sign "+" then read_unsigned rest
          else None
      end
  end.

(** The integer a string is the decimal text of, if it is one: ["7"] and
    ["-12"] are, ["07"] and ["+7"] are not. *)
Definition canonical (x : string) : option Z :=
  match read_decimal x with
  | Some i => if decide (pretty i = x) then Some i else None
  | None => None
  end.

(** The tables the converter reads and writes, the statements executed
    through [session.scalars] so far, oldest first, and what the database
    makes of a string that is not the decimal text of an integer when it
    compares it with a key. *)
Record Session : Type := mkSession {
  datasets : gmap Z OrmDataset;
  publications : gmap Z OrmPublication;
  licenses : list (Row string);
  alternate_names : list (Row string);
  keywords : list (Row string);
  measured_values : list (Row MeasuredKey);
  executed : list Select;
  dialect : string → option Z
}.

(** The key a string parameter is read as. *)
Definition reads (s : Session) (x : string) : option Z :=
  match canonical x with
  | Some i => Some i
  | None => dialect s x
  end.

(** The sessions of the examples read digits with an optional sign. *)
Definition empty_session : Session :=
  mkSession ∅ ∅ [] [] [] [] [] read_decimal.

Definition table_ids (s : Session) (cls : OrmClass) : list Z :=
  match cls with
  | ClsOrmDataset => elements (dom (datasets s))
  | ClsOrmPublication => elements (dom (publications s))
  end.

(** The rows a statement selects: a row is selected when its key is what
    one of the parameters is read as.  Each row comes once, however many
    parameters are read as its key. *)
Definition select_rows (s : Session) (q : Select) : list Related :=
  mkRelated (sel_cls q) <$>
    filter (λ i, i ∈ set_omap (D:=gset Z) (reads s) (sel_ids q))
           (table_ids s (sel_cls q)).

Definition record_statements (qs : list Select) (s : Session) : Session :=
  mkSession (datasets s) (publications s) (licenses s) (alternate_names s)
            (keywords s) (measured_values s) (executed s ++ qs) (dialect s).

Definition record_statement (q : Select) : Session → Session :=
  record_statements [q].

Definition set_licenses (t : list (Row string)) (s : Session) : Session :=
  mkSession (datasets s) (publications s) t (alternate_names s)
            (keywords s) (measured_values s) (executed s) (dialect s).

Definition set_alternate_names (t : list (Row string)) (s : Session) : Session :=
  mkSession (datasets s) (publications s) (licenses s) t
            (keywords s) (measured_values s) (executed s) (dialect s).

Definition set_keywords (t : list (Row string)) (s : Session) : Session :=
  mkSession (datasets s) (publications s) (licenses s) (alternate_names s)
            t (measured_values s) (executed s) (dialect s).

Definition set_measured_values (t : list (Row MeasuredKey)) (s : Session) : Session :=
  mkSession (datasets s) (publications s) (licenses s) (alternate_names s)
            (keywords s) t (executed s) (dialect s).

(** Computations on a session that may raise. *)
Definition M (A : Type) : Type := Session → (Exception + A) * Session.

#[global] Instance session_ret : MRet M := λ A a s, (inr a, s).

#[global] Instance session_bind : MBind M := λ A B k m s,
  match m s with
  | (inl e, s') => (inl e, s')
  | (inr a, s') => k a s'
  end.

Definition raise {A} (e : Exception) : M A := λ s, (inl e, s).

(** [session.scalars(query).all()] *)
Definition scalars_all (q : Select) : M (list Related) :=
  λ s, (inr (select_rows s q), record_statement q s).

(** ** [_retrieve_related_objects_by_ids] *)

Definition not_found_prefix : string := "Dataset parts '".
Definition not_found_suffix : string := "' not found in the database.".

Definition _retrieve_related_objects_by_ids
    (ids : gset string) (cls : OrmClass) : M (list Related) :=
  (if bool_decide (0 < size ids) then
     related_objects ← scalars_all (mkSelect cls ids);
     if bool_decide (length related_objects ≠ size ids) then
       let ids_not_found : gset pyval :=
         set_map PyStr ids ∖ list_to_set ((PyInt ∘ rel_id) <$> related_objects) in
       match str_join ", " (elements ids_not_found) with
       | inl e => raise e
       | inr joined =>
           raise (HTTPException 404 (not_found_prefix +:+ joined +:+ not_found_suffix))
       end
     else mret related_objects
   else mret []).

(** ** Shared lookup entities: [as_unique]

    Modelled from the spec: [as_unique], which the ORM classes of
    [database.model] define and which is not among the sources.  Section 4.1:
    given a natural key, it returns the existing row with that key if
    present, otherwise creates one and returns it. *)
Section as_unique.
Context {K : Type} `{EqDecision K}.

Definition rows_with_key (k : K) (t : list (Row K)) : list (Row K) :=
  filter (λ r, row_key r = k) t.

Definition fresh_row_id (t : list (Row K)) : nat :=
  S (max_list (row_id <$> t)).

Definition as_unique (k : K) (t : list (Row K)) : Row K * list (Row K) :=
  match head (rows_with_key k t) with
  | Some r => (r, t)
  | None => let r := mkRow (fresh_row_id t) k in (r, t ++ [r])
  end.
End as_unique.

Definition OrmLicense_as_unique (name : string) : M (Row string) := λ s,
  let '(r, t) := as_unique name (licenses s) in (inr r, set_licenses t s).

Definition OrmAlternateName_as_unique (name : string) : M (Row string) := λ s,
  let '(r, t) := as_unique name (alternate_names s) in
  (inr r, set_alternate_names t s).

Definition OrmKeyword_as_unique (name : string) : M (Row string) := λ s,
  let '(r, t) := as_unique name (keywords s) in (inr r, set_keywords t s).

Definition OrmMeasuredValue_as_unique
    (variable technique : option string) : M (Row MeasuredKey) := λ s,
  let '(r, t) := as_unique (variable, technique) (measured_values s) in
  (inr r, set_measured_values t s).

(** ** The AIoD schemas ([schemas.py]) *)

Record AIoDDistribution : Type := mkAIoDDistribution {
  distr_content_url : string;
  distr_content_size_kb : option Z;
  distr_description : option string;
  distr_name : option string;
  distr_encoding_format : option string
}.

Record AIoDMeasurementValue : Type := mkAIoDMeasurementValue {
  mv_variable : option string;
  mv_technique : option string
}.

Record AIoDPublication : Type := mkAIoDPublication {
  publ_id : option Z;
  publ_title : option string;
  publ_url : option string
}.

(** [citations: Set[str] | List[AIoDPublication]] *)
Inductive Citations : Type :=
  | CitationIds (ids : gset string)
  | CitationRecords (records : list AIoDPublication).

Record AIoDDataset : Type := mkAIoDDataset {
  aiod_id : option Z;
  aiod_description : string;
  aiod_name : string;
  aiod_node : string;
  aiod_node_specific_identifier : string;
  aiod_same_as : string;
  aiod_creator : option string;
  aiod_date_modified : option datetime;
  aiod_date_published : option datetime;
  aiod_funder : option string;
  aiod_is_accessible_for_free : option bool;
  aiod_issn : option string;
  aiod_size : option Z;
  aiod_spatial_coverage : option string;
  aiod_temporal_coverage_from : option datetime;
  aiod_temporal_coverage_to : option datetime;
  aiod_version : option string;
  aiod_license : option string;
  aiod_has_parts : gset string;
  aiod_is_part : gset string;
  aiod_alternate_names : gset string;
  aiod_citations : Citations;
  aiod_distributions : list AIoDDistribution;
  aiod_keywords : gset string;
  aiod_measured_values : list AIoDMeasurementValue
}.

(** ** Validation of the schemas (pydantic's [Field] constraints)

    The limits are the ones [schemas.py] declares; the entries are the ones
    the tests of the [PUT] route show, without the ["body"] the routing layer
    puts in front of each path. *)

Definition missing_error (field : string) : ErrorEntry :=
  mkErrorEntry [PyStr field] "field required" "value_error.missing" None.

Definition max_length_error (field : string) (limit : nat) : ErrorEntry :=
  mkErrorEntry [PyStr field]
    ("ensure this value has at most " +:+ pretty limit +:+ " characters")
    "value_error.any_str.max_length" (Some limit).

Definition min_length_error (field : string) (limit : nat) : ErrorEntry :=
  mkErrorEntry [PyStr field]
    ("ensure this value has at least " +:+ pretty limit +:+ " characters")
    "value_error.any_str.min_length" (Some limit).

(** [Field(min_length=lo, max_length=hi)] on one string: the lower bound is
    checked first, and a field reports one error at most. *)
Definition check_length (field : string) (lo : option nat) (hi : option nat)
    (v : string) : list ErrorEntry :=
  match lo with
  | Some l =>
      if bool_decide (String.length v < l) then [min_length_error field l]
      else match hi with
           | Some h =>
               if bool_decide (h < String.length v)
               then [max_length_error field h] else []
           | None => []
           end
  | None =>
      match hi with
      | Some h =>
          if bool_decide (h < String.length v)
          then [max_length_error field h] else []
      | None => []
      end
  end.

(** A field declared [str = Field(max_length=hi)]: required. *)
Definition check_required (field : string) (hi : nat)
    (v : option string) : list ErrorEntry :=
  match v with
  | None => [missing_error field]
  | Some x => check_length field None (Some hi) x
  end.

(** A field declared [str | None = Field(...)]: [None] passes. *)
Definition check_optional (field : string) (lo : option nat) (hi : option nat)
    (v : option string) : list ErrorEntry :=
  match v with
  | None => []
  | Some x => check_length field lo hi x
  end.

(** [AIoDDistribution(...)] *)
Definition distribution_errors (d : AIoDDistribution) : list ErrorEntry :=
  check_length "content_url" None (Some 150) (distr_content_url d)
  ++ check_optional "description" None (Some 5000) (distr_description d)
  ++ check_optional "name" None (Some 150) (distr_name d)
  ++ check_optional "encoding_format" None (Some 150) (distr_encoding_format d).

Definition AIoDDistribution_init (content_url : string)
    (content_size_kb : option Z) (description name encoding_format : option string)
    : Exception + AIoDDistribution :=
  let d := mkAIoDDistribution content_url content_size_kb description name
                              encoding_format in
  match distribution_errors d with
  | [] => inr d
  | e :: es => inl (ValidationError (e :: es))
  end.

(** [AIoDPublication(...)] *)
Definition publication_errors (title url : option string) : list ErrorEntry :=
  check_optional "title" None (Some 250) title
  ++ check_optional "url" None (Some 250) url.

(** The entry of an object inside a model, under the path of the object. *)
Definition nested (path : list pyval) (e : ErrorEntry) : ErrorEntry :=
  mkErrorEntry (path ++ loc e) (msg e) (type_ e) (limit_value e).

(** The entries of the objects of a list field, from index [i] on: each
    object is validated, and its entries come under the name of the field and
    the index of the object. *)
Fixpoint list_errors {A} (field : string) (errors : A → list ErrorEntry)
    (i : nat) (l : list A) : list ErrorEntry :=
  match l with
  | [] => []
  | a :: rest =>
      (nested [PyStr field; PyInt (Z.of_nat i)] <$> errors a)
      ++ list_errors field errors (S i) rest
  end.

(** What the string validator says of a value that is an object. *)
Definition str_type_error (path : list pyval) : ErrorEntry :=
  mkErrorEntry path "str type expected" "type_error.str" None.

(** The value given for [citations]: a collection of identifiers, or a list
    of publication objects. *)
Inductive RawCitations : Type :=
  | RawCitationValues (values : list pyval)
  | RawCitationRecords (records : list AIoDPublication).

(** [citations: Set[str] | List[AIoDPublication]].  The alternatives are
    tried in turn, and the entries of all of them are reported when none
    accepts the value.  Strings and integers make a set of strings.  A list
    of publication objects is refused by the first alternative, with one
    entry for each object, and accepted by the second when every object is
    within the limits of [AIoDPublication]. *)
Definition citations_errors (c : RawCitations) : list ErrorEntry :=
  match c with
  | RawCitationValues _ => []
  | RawCitationRecords records =>
      match
        list_errors "citations"
          (λ p, publication_errors (publ_title p) (publ_url p)) 0 records
      with
      | [] => []
      | e :: es =>
          ((λ i, str_type_error [PyStr "citations"; PyInt (Z.of_nat i)])
             <$> seq 0 (length records))
          ++ e :: es
      end
  end.

(** The keyword arguments of [AIoDDataset(...)] (the body of a request).
    [None] in a required field is an absent key; a collection that is left
    out is empty.  A distribution and a publication are given by the values
    of their fields. *)
Record RawDataset : Type := mkRawDataset {
  raw_id : option Z;
  raw_description : option string;
  raw_name : option string;
  raw_node : option string;
  raw_node_specific_identifier : option string;
  raw_same_as : option string;
  raw_creator : option string;
  raw_date_modified : option datetime;
  raw_date_published : option datetime;
  raw_funder : option string;
  raw_is_accessible_for_free : option bool;
  raw_issn : option string;
  raw_size : option Z;
  raw_spatial_coverage : option string;
  raw_temporal_coverage_from : option datetime;
  raw_temporal_coverage_to : option datetime;
  raw_version : option string;
  raw_license : option string;
  raw_has_parts : list pyval;
  raw_is_part : list pyval;
  raw_alternate_names : list pyval;
  raw_citations : RawCitations;
  raw_distributions : list AIoDDistribution;
  raw_keywords : list pyval;
  raw_measured_values : list AIoDMeasurementValue
}.

(** The errors of all fields, in the order the fields are declared; those of
    the publications and of the distributions inside are among them.  (An
    object that [AIoDDistribution] has constructed is within its limits, so
    that the distributions [orm_to_aiod] passes add nothing here, as in
    pydantic, which takes an object of the model as it is.) *)
Definition dataset_errors (raw : RawDataset) : list ErrorEntry :=
  check_required "description" 5000 (raw_description raw)
  ++ check_required "name" 150 (raw_name raw)
  ++ check_required "node" 30 (raw_node raw)
  ++ check_required "node_specific_identifier" 250 (raw_node_specific_identifier raw)
  ++ check_required "same_as" 150 (raw_same_as raw)
  ++ check_optional "creator" None (Some 150) (raw_creator raw)
  ++ check_optional "issn" (Some 8) (Some 8) (raw_issn raw)
  ++ check_optional "spatial_coverage" None (Some 500) (raw_spatial_coverage raw)
  ++ check_optional "version" None (Some 150) (raw_version raw)
  ++ check_optional "license" None (Some 150) (raw_license raw)
  ++ citations_errors (raw_citations raw)
  ++ list_errors "distributions" distribution_errors 0 (raw_distributions raw).

(** [Set[str]] from the values given: each value is made a string, and the
    strings are collected in a set. *)
Definition set_of_str (values : list pyval) : gset string :=
  list_to_set (py_str <$> values).

(** [Set[str] | List[AIoDPublication]]: the first alternative that accepts
    the value wins; an empty list is accepted by the first. *)
Definition validate_citations (c : RawCitations) : Citations :=
  match c with
  | RawCitationValues values => CitationIds (set_of_str values)
  | RawCitationRecords [] => CitationIds ∅
  | RawCitationRecords (p :: ps) => CitationRecords (p :: ps)
  end.

Definition AIoDDataset_init (raw : RawDataset) : Exception + AIoDDataset :=
  match dataset_errors raw with
  | [] =>
      inr (mkAIoDDataset
             (raw_id raw)
             (default "" (raw_description raw))
             (default "" (raw_name raw))
             (default "" (raw_node raw))
             (default "" (raw_node_specific_identifier raw))
             (default "" (raw_same_as raw))
             (raw_creator raw)
             (raw_date_modified raw)
             (raw_date_published raw)
             (raw_funder raw)
             (raw_is_accessible_for_free raw)
             (raw_issn raw)
             (raw_size raw)
             (raw_spatial_coverage raw)
             (raw_temporal_coverage_from raw)
             (raw_temporal_coverage_to raw)
             (raw_version raw)
             (raw_license raw)
             (set_of_str (raw_has_parts raw))
             (set_of_str (raw_is_part raw))
             (set_of_str (raw_alternate_names raw))
             (validate_citations (raw_citations raw))
             (raw_distributions raw)
             (set_of_str (raw_keywords raw))
             (raw_measured_values raw))
  | e :: es => inl (ValidationError (e :: es))
  end.

(** ** [orm_to_aiod] *)

(** A list comprehension whose element expression may raise: the first
    exception ends it. *)
Fixpoint comprehension {A B} (f : A → Exception + B) (l : list A)
    : Exception + list B :=
  match l with
  | [] => inr []
  | a :: rest =>
      match f a with
      | inl e => inl e
      | inr b =>
          match comprehension f rest with
          | inl e => inl e
          | inr bs => inr (b :: bs)
          end
      end
  end.

Definition orm_to_aiod (orm : OrmDataset) : Exception + AIoDDataset :=
  match
    comprehension
      (λ orm_distr,
         AIoDDistribution_init
           (dd_content_url orm_distr)
           (dd_content_size_kb orm_distr)
           (dd_description orm_distr)
           (dd_name orm_distr)
           (dd_encoding_format orm_distr))
      (orm_distributions orm)
  with
  | inl e => inl e
  | inr distributions =>
      AIoDDataset_init
        (mkRawDataset
           (orm_id orm)
           (Some (orm_description orm))
           (Some (orm_name orm))
           (Some (orm_node orm))
           (Some (orm_node_specific_identifier orm))
           (Some (orm_same_as orm))
           (orm_creator orm)
           (orm_date_modified orm)
           (orm_date_published orm)
           (orm_funder orm)
           (orm_is_accessible_for_free orm)
           (orm_issn orm)
           (orm_size orm)
           (orm_spatial_coverage orm)
           (orm_temporal_coverage_from orm)
           (orm_temporal_coverage_to orm)
           (orm_version orm)
           (row_key <$> orm_license orm)
           ((PyInt ∘ rel_id) <$> orm_has_parts orm)
           ((PyInt ∘ rel_id) <$> orm_is_part orm)
           ((PyStr ∘ row_key) <$> orm_alternate_names orm)
           (RawCitationValues ((PyInt ∘ rel_id) <$> orm_citations orm))
           distributions
           ((PyStr ∘ row_key) <$> orm_keywords orm)
           ((λ mv, mkAIoDMeasurementValue (fst (row_key mv)) (snd (row_key mv)))
              <$> orm_measured_values orm))
  end.

(** ** [aiod_to_orm] *)

Definition set_orm_id (i : option Z) (orm : OrmDataset) : OrmDataset :=
  mkOrmDataset i
    (orm_description orm) (orm_name orm) (orm_node orm)
    (orm_node_specific_identifier orm) (orm_same_as orm) (orm_creator orm)
    (orm_date_modified orm) (orm_date_published orm) (orm_funder orm)
    (orm_is_accessible_for_free orm) (orm_issn orm) (orm_size orm)
    (orm_spatial_coverage orm) (orm_temporal_coverage_from orm)
    (orm_temporal_coverage_to orm) (orm_version orm) (orm_license orm)
    (orm_has_parts orm) (orm_is_part orm) (orm_alternate_names orm)
    (orm_citations orm) (orm_distributions orm) (orm_keywords orm)
    (orm_measured_values orm).

(** The iteration over a Python set visits each element once, in an order
    the language leaves open; [elements] is one such enumeration. *)
Definition aiod_to_orm (aiod : AIoDDataset) : M OrmDataset :=
  citations ←
    match aiod_citations aiod with
    | CitationRecords _ => mret []
    | CitationIds ids => _retrieve_related_objects_by_ids ids ClsOrmPublication
    end;
  has_parts ← _retrieve_related_objects_by_ids (aiod_has_parts aiod) ClsOrmDataset;
  is_part ← _retrieve_related_objects_by_ids (aiod_is_part aiod) ClsOrmDataset;
  license ←
    match aiod_license aiod with
    | Some name => r ← OrmLicense_as_unique name; mret (Some r)
    | None => mret None
    end;
  alternate_names ←
    mapM OrmAlternateName_as_unique (elements (aiod_alternate_names aiod));
  let distributions :=
    (λ orm_distr,
       mkOrmDataDownload
         (distr_content_url orm_distr)
         (distr_content_size_kb orm_distr)
         (distr_description orm_distr)
         (distr_name orm_distr)
         (distr_encoding_format orm_distr)) <$> aiod_distributions aiod in
  keywords ← mapM OrmKeyword_as_unique (elements (aiod_keywords aiod));
  measured_values ←
    mapM (λ mv, OrmMeasuredValue_as_unique (mv_variable mv) (mv_technique mv))
         (aiod_measured_values aiod);
  mret
    (set_orm_id (aiod_id aiod)
       (mkOrmDataset None
          (aiod_description aiod)
          (aiod_name aiod)
          (aiod_node aiod)
          (aiod_node_specific_identifier aiod)
          (aiod_same_as aiod)
          (aiod_creator aiod)
          (aiod_date_modified aiod)
          (aiod_date_published aiod)
          (aiod_funder aiod)
          (aiod_is_accessible_for_free aiod)
          (aiod_issn aiod)
          (aiod_size aiod)
          (aiod_spatial_coverage aiod)
          (aiod_temporal_coverage_from aiod)
          (aiod_temporal_coverage_to aiod)
          (aiod_version aiod)
          license
          has_parts
          is_part
          alternate_names
          citations
          distributions
          keywords
          measured_values)).

(** ** Registration

    Modelled from the spec: the [register] operation of the service layer,
    of which the sources hold only the tests.  Section 6: a canonical record
    without identifier is given an identifier and persisted; on a duplicate
    natural key (name, node) the operation fails with a Conflict whose
    message includes the existing identifier.  The text of the message is the
    one [test_duplicated_dataset] expects. *)

Definition same_natural_key (aiod : AIoDDataset) (row : Z * OrmDataset) : Prop :=
  orm_name row.2 = aiod_name aiod ∧ orm_node row.2 = aiod_node aiod.

#[global] Instance same_natural_key_dec aiod row :
  Decision (same_natural_key aiod row).
Proof. unfold same_natural_key. apply _. Defined.

Definition existing_dataset (aiod : AIoDDataset) (s : Session) : option Z :=
  fst <$> head (filter (same_natural_key aiod) (map_to_list (datasets s))).

Definition conflict_detail (i : Z) : string :=
  "There already exists a dataset with the same platform and name, with id="
  +:+ pretty i +:+ ".".

Definition next_dataset_id (s : Session) : Z :=
  (1 + foldr Z.max 0 (elements (dom (datasets s))))%Z.

Definition persist (i : Z) (orm : OrmDataset) (s : Session) : Session :=
  mkSession (<[i := set_orm_id (Some i) orm]> (datasets s)) (publications s)
            (licenses s) (alternate_names s) (keywords s) (measured_values s)
            (executed s) (dialect s).

Definition register_dataset (aiod : AIoDDataset) : M Z := λ s,
  match existing_dataset aiod s with
  | Some i => (inl (HTTPException 409 (conflict_detail i)), s)
  | None =>
      match aiod_to_orm aiod s with
      | (inl e, _) => (inl e, s)
      | (inr orm, s') =>
          let i := next_dataset_id s' in
          (inr i, persist i orm s')
      end
  end.

(** ** The other schemas of [schemas.py] *)

(** A required field without a constraint of its own. *)
Definition check_given {A} (field : string) (v : option A) : list ErrorEntry :=
  match v with
  | None => [missing_error field]
  | Some _ => []
  end.

(** A constructor that raises the errors it collected, if any. *)
Definition construct {A} (errors : list ErrorEntry) (a : A) : Exception + A :=
  match errors with
  | [] => inr a
  | e :: es => inl (ValidationError (e :: es))
  end.

Definition AIoDPublication_init (id : option Z) (title url : option string)
    : Exception + AIoDPublication :=
  construct (publication_errors title url) (mkAIoDPublication id title url).

Record Tag : Type := mkTag {
  tag_tag : string;
  tag_id : option Z
}.

Definition Tag_init (tag : option string) (id : option Z) : Exception + Tag :=
  construct (check_required "tag" 250 tag) (mkTag (default "" tag) id).

Record BusinessCategory : Type := mkBusinessCategory {
  bc_category : string;
  bc_id : option Z
}.

Definition BusinessCategory_init (category : option string) (id : option Z)
    : Exception + BusinessCategory :=
  construct (check_required "category" 250 category)
            (mkBusinessCategory (default "" category) id).

Record NewsCategory : Type := mkNewsCategory {
  nc_category : string;
  nc_parent_id : option Z;
  nc_id : option Z
}.

Definition NewsCategory_init (category : option string)
    (parent_id id : option Z) : Exception + NewsCategory :=
  construct (check_required "category" 250 category)
            (mkNewsCategory (default "" category) parent_id id).

Record News : Type := mkNews {
  news_title : string;
  news_date_modified : datetime;
  news_body : string;
  news_headline : string;
  news_alternative_headline : option string;
  news_section : string;
  news_word_count : Z;
  news_media : option (list string);
  news_source : option string;
  news_news_categories : option (list string);
  news_business_categories : option (list string);
  news_tags : option (list string);
  news_id : option Z
}.

(** The keyword arguments of [News(...)]; [None] in a required field is an
    absent key. *)
Record RawNews : Type := mkRawNews {
  rn_title : option string;
  rn_date_modified : option datetime;
  rn_body : option string;
  rn_headline : option string;
  rn_alternative_headline : option string;
  rn_section : option string;
  rn_word_count : option Z;
  rn_media : option (list string);
  rn_source : option string;
  rn_news_categories : option (list string);
  rn_business_categories : option (list string);
  rn_tags : option (list string);
  rn_id : option Z
}.

Definition news_errors (raw : RawNews) : list ErrorEntry :=
  check_required "title" 500 (rn_title raw)
  ++ check_given "date_modified" (rn_date_modified raw)
  ++ check_required "body" 2000 (rn_body raw)
  ++ check_required "headline" 500 (rn_headline raw)
  ++ check_optional "alternative_headline" None (Some 500)
       (rn_alternative_headline raw)
  ++ check_required "section" 500 (rn_section raw)
  ++ check_given "word_count" (rn_word_count raw).

Definition News_init (raw : RawNews) : Exception + News :=
  construct (news_errors raw)
    (mkNews
       (default "" (rn_title raw))
       (default 0%Z (rn_date_modified raw))
       (default "" (rn_body raw))
       (default "" (rn_headline raw))
       (rn_alternative_headline raw)
       (default "" (rn_section raw))
       (default 0%Z (rn_word_count raw))
       (rn_media raw)
       (rn_source raw)
       (rn_news_categories raw)
       (rn_business_categories raw)
       (rn_tags raw)
       (rn_id raw)).

(** The paths of the fields of [News] that can be reported, in the order of
    their declaration. *)
Definition news_fields : list (list pyval) :=
  [[PyStr "title"]; [PyStr "date_modified"]; [PyStr "body"];
   [PyStr "headline"]; [PyStr "alternative_headline"]; [PyStr "section"];
   [PyStr "word_count"]].

(** The news item of the tests. *)
Definition news_n1 : RawNews :=
  mkRawNews (Some "n1") (Some 1679356800%Z) (Some "b1") (Some "h1")
    (Some "ah1") (Some "s1") (Some 10%Z) None (Some "s1") None None None None.

(** ** Notions the properties are stated with *)

(** An identifier is present in a table when it is read as the key of a row
    of the table. *)
Definition present (s : Session) (cls : OrmClass) (x : string) : Prop :=
  ∃ i : Z, i ∈ table_ids s cls ∧ reads s x = Some i.

#[global] Instance present_dec s cls x : Decision (present s cls x).
Proof.
  unfold present. destruct (reads s x) as [i|].
  - destruct (decide (i ∈ table_ids s cls)) as [Hi|Hi].
    + left. exists i. by split.
    + right. intros (j & Hj & Heq). injection Heq as ->. by apply Hi.
  - right. intros (j & _ & Heq). discriminate Heq.
Defined.

(** The identifiers of a statement that are read as the key of no row. *)
Definition missing (s : Session) (q : Select) : gset string :=
  filter (λ x, ¬ present s (sel_cls q) x) (sel_ids q).

(** A statement resolves when each of its identifiers is present and no two
    of them are read as the same key, so that there is one row for each. *)
Definition resolves (s : Session) (q : Select) : Prop :=
  (∀ x, x ∈ sel_ids q → present s (sel_cls q) x)
  ∧ (∀ x, x ∈ sel_ids q → ∀ y, y ∈ sel_ids q →
          reads s x = reads s y → x = y).

#[global] Instance resolves_dec s q : Decision (resolves s q).
Proof.
  unfold resolves. apply and_dec.
  - apply (set_Forall_dec (λ x, present s (sel_cls q) x)).
  - apply (set_Forall_dec
             (λ x, set_Forall (λ y, reads s x = reads s y → x = y) (sel_ids q))).
Defined.

(** The rows are the rows the identifiers are read as: a row for every
    identifier, and an identifier for every row. *)
Definition rows_of (s : Session) (ids : gset string) (rows : list Related)
    : Prop :=
  (∀ x, x ∈ ids → ∃ r, r ∈ rows ∧ reads s x = Some (rel_id r))
  ∧ (∀ r, r ∈ rows → ∃ x, x ∈ ids ∧ reads s x = Some (rel_id r)).

(** Identifiers that are each the decimal text of an integer. *)
Definition canonical_ids (ids : gset string) : Prop :=
  ∀ x, x ∈ ids → is_Some (canonical x).

#[global] Instance canonical_ids_dec ids : Decision (canonical_ids ids).
Proof. apply (set_Forall_dec (λ x, is_Some (canonical x))). Defined.

(** A [detail] that enumerates the identifiers [l], in that order. *)
Definition not_found_detail (l : list string) : string :=
  not_found_prefix +:+ join ", " l +:+ not_found_suffix.

(** A dataset row with the scalar fields the tests populate. *)
Definition dataset_row (i : Z) (name node : string) : OrmDataset :=
  mkOrmDataset (Some i) "" name node "1" "openml.org/1"
    None None None None None None None None None None None
    None [] [] [] [] [] [] [].

(** The store with the single dataset 1. *)
Definition one_dataset_session : Session :=
  mkSession {[ 1%Z := dataset_row 1 "dset1" "openml" ]} ∅ [] [] [] [] []
            read_decimal.

(** Resolving a list of keys one after the other: the rows returned and the
    table in the end. *)
Fixpoint resolve_all {K} `{EqDecision K} (ks : list K) (t : list (Row K))
    : list (Row K) * list (Row K) :=
  match ks with
  | [] => ([], t)
  | k :: ks =>
      let '(r, t1) := as_unique k t in
      let '(rs, t2) := resolve_all ks t1 in
      (r :: rs, t2)
  end.

(** The statements one resolution executes. *)
Definition statements_of (cls : OrmClass) (ids : gset string) : list Select :=
  if decide (ids = ∅) then [] else [mkSelect cls ids].

Definition citation_statements (aiod : AIoDDataset) : list Select :=
  match aiod_citations aiod with
  | CitationIds ids => statements_of ClsOrmPublication ids
  | CitationRecords _ => []
  end.

Definition citation_rows (aiod : AIoDDataset) (s : Session) : list Related :=
  match aiod_citations aiod with
  | CitationIds ids => select_rows s (mkSelect ClsOrmPublication ids)
  | CitationRecords _ => []
  end.

(** The citations resolve: embedded records ask for nothing. *)
Definition citations_resolve (aiod : AIoDDataset) (s : Session) : Prop :=
  match aiod_citations aiod with
  | CitationIds ids => resolves s (mkSelect ClsOrmPublication ids)
  | CitationRecords _ => True
  end.

#[global] Instance citations_resolve_dec aiod s :
  Decision (citations_resolve aiod s).
Proof. unfold citations_resolve. destruct (aiod_citations aiod); apply _. Defined.

(** Every relation of the dataset resolves. *)
Definition resolvable (aiod : AIoDDataset) (s : Session) : Prop :=
  citations_resolve aiod s
  ∧ resolves s (mkSelect ClsOrmDataset (aiod_has_parts aiod))
  ∧ resolves s (mkSelect ClsOrmDataset (aiod_is_part aiod)).

#[global] Instance resolvable_dec aiod s : Decision (resolvable aiod s).
Proof. unfold resolvable. apply _. Defined.

Definition measured_key (mv : AIoDMeasurementValue) : MeasuredKey :=
  (mv_variable mv, mv_technique mv).

Definition license_rows (aiod : AIoDDataset) (s : Session)
    : option (Row string) * list (Row string) :=
  match aiod_license aiod with
  | Some name => let '(r, t) := as_unique name (licenses s) in (Some r, t)
  | None => (None, licenses s)
  end.

Definition download_of (d : AIoDDistribution) : OrmDataDownload :=
  mkOrmDataDownload (distr_content_url d) (distr_content_size_kb d)
    (distr_description d) (distr_name d) (distr_encoding_format d).

(** The record a successful conversion returns, and the session it leaves. *)
Definition converted (aiod : AIoDDataset) (s : Session) : OrmDataset :=
  mkOrmDataset (aiod_id aiod)
    (aiod_description aiod) (aiod_name aiod) (aiod_node aiod)
    (aiod_node_specific_identifier aiod) (aiod_same_as aiod)
    (aiod_creator aiod) (aiod_date_modified aiod) (aiod_date_published aiod)
    (aiod_funder aiod) (aiod_is_accessible_for_free aiod) (aiod_issn aiod)
    (aiod_size aiod) (aiod_spatial_coverage aiod)
    (aiod_temporal_coverage_from aiod) (aiod_temporal_coverage_to aiod)
    (aiod_version aiod)
    (license_rows aiod s).1
    (select_rows s (mkSelect ClsOrmDataset (aiod_has_parts aiod)))
    (select_rows s (mkSelect ClsOrmDataset (aiod_is_part aiod)))
    (resolve_all (elements (aiod_alternate_names aiod)) (alternate_names s)).1
    (citation_rows aiod s)
    (download_of <$> aiod_distributions aiod)
    (resolve_all (elements (aiod_keywords aiod)) (keywords s)).1
    (resolve_all (measured_key <$> aiod_measured_values aiod) (measured_values s)).1.

Definition session_after (aiod : AIoDDataset) (s : Session) : Session :=
  mkSession (datasets s) (publications s)
    (license_rows aiod s).2
    (resolve_all (elements (aiod_alternate_names aiod)) (alternate_names s)).2
    (resolve_all (elements (aiod_keywords aiod)) (keywords s)).2
    (resolve_all (measured_key <$> aiod_measured_values aiod) (measured_values s)).2
    (((executed s ++ citation_statements aiod)
      ++ statements_of ClsOrmDataset (aiod_has_parts aiod))
     ++ statements_of ClsOrmDataset (aiod_is_part aiod))
    (dialect s).


(** A canonical dataset with the required fields of the tests, the given
    keywords and citations, and nothing else. *)
Definition example_dataset (name : string) (kws : gset string)
    (cit : Citations) : AIoDDataset :=
  mkAIoDDataset None "description" name "openml" "1" "url"
    None None None None None None None None None None None
    None ∅ ∅ ∅ cit [] kws [].

Definition example_publication : AIoDPublication :=
  mkAIoDPublication None (Some "A paper") (Some "https://example.org/paper").

(** The scenario of the spec: dataset A with the keywords ml and ai, then
    dataset B with the keywords ai and nlp, on an empty store. *)
Definition dataset_A : AIoDDataset :=
  example_dataset "A" {[ "ml"; "ai" ]} (CitationIds ∅).

Definition dataset_B : AIoDDataset :=
  example_dataset "B" {[ "ai"; "nlp" ]} (CitationIds ∅).

Definition session_A : Session := session_after dataset_A empty_session.
Definition session_AB : Session := session_after dataset_B session_A.

(** The keyword arguments that spell out a canonical dataset
    ([aiod.dict()]). *)
Definition dump (aiod : AIoDDataset) : RawDataset :=
  mkRawDataset
    (aiod_id aiod)
    (Some (aiod_description aiod))
    (Some (aiod_name aiod))
    (Some (aiod_node aiod))
    (Some (aiod_node_specific_identifier aiod))
    (Some (aiod_same_as aiod))
    (aiod_creator aiod)
    (aiod_date_modified aiod)
    (aiod_date_published aiod)
    (aiod_funder aiod)
    (aiod_is_accessible_for_free aiod)
    (aiod_issn aiod)
    (aiod_size aiod)
    (aiod_spatial_coverage aiod)
    (aiod_temporal_coverage_from aiod)
    (aiod_temporal_coverage_to aiod)
    (aiod_version aiod)
    (aiod_license aiod)
    (PyStr <$> elements (aiod_has_parts aiod))
    (PyStr <$> elements (aiod_is_part aiod))
    (PyStr <$> elements (aiod_alternate_names aiod))
    (match aiod_citations aiod with
     | CitationIds ids => RawCitationValues (PyStr <$> elements ids)
     | CitationRecords records => RawCitationRecords records
     end)
    (aiod_distributions aiod)
    (PyStr <$> elements (aiod_keywords aiod))
    (aiod_measured_values aiod).

(** A canonical dataset: its fields, and the fields of its distributions and
    of the publications it embeds, are within the limits of the schemas. *)
Definition valid_dataset (aiod : AIoDDataset) : Prop :=
  dataset_errors (dump aiod) = []
  ∧ Forall (λ d, distribution_errors d = []) (aiod_distributions aiod).

(** The dataset with other citations. *)
Definition with_citations (c : Citations) (aiod : AIoDDataset) : AIoDDataset :=
  mkAIoDDataset
    (aiod_id aiod) (aiod_description aiod) (aiod_name aiod) (aiod_node aiod)
    (aiod_node_specific_identifier aiod) (aiod_same_as aiod)
    (aiod_creator aiod) (aiod_date_modified aiod) (aiod_date_published aiod)
    (aiod_funder aiod) (aiod_is_accessible_for_free aiod) (aiod_issn aiod)
    (aiod_size aiod) (aiod_spatial_coverage aiod)
    (aiod_temporal_coverage_from aiod) (aiod_temporal_coverage_to aiod)
    (aiod_version aiod) (aiod_license aiod) (aiod_has_parts aiod)
    (aiod_is_part aiod) (aiod_alternate_names aiod) c
    (aiod_distributions aiod) (aiod_keywords aiod) (aiod_measured_values aiod).

(** The citations as identifiers: embedded records carry none. *)
Definition citation_ids (aiod : AIoDDataset) : gset string :=
  match aiod_citations aiod with
  | CitationIds ids => ids
  | CitationRecords _ => ∅
  end.

(** A store with publication 1, and a dataset that cites it. *)
Definition one_publication_session : Session :=
  mkSession ∅ {[ 1%Z := mkOrmPublication (Some "A paper") None ]} [] [] [] [] []
            read_decimal.

(** A dataset that cites publication 1 as ["01"]. *)
Definition citing_dataset_01 : AIoDDataset :=
  mkAIoDDataset (Some 7%Z) "description" "dset" "openml" "1" "url"
    None None None None None None None None None None None
    None ∅ ∅ ∅ (CitationIds {[ "01" ]}) [] ∅ [].

Definition citing_dataset : AIoDDataset :=
  mkAIoDDataset (Some 7%Z) "description" "dset" "openml" "1" "url"
    (Some "someone") None None None (Some true) (Some "12345678") (Some 10%Z)
    None None None (Some "1.0")
    (Some "mit") ∅ ∅ {[ "alias"; "other" ]} (CitationIds {[ "1" ]})
    [mkAIoDDistribution "https://example.org/data" (Some 1%Z) None (Some "csv") None]
    {[ "nlp"; "ml" ]}
    [mkAIoDMeasurementValue (Some "length") (Some "ruler");
     mkAIoDMeasurementValue (Some "length") (Some "ruler")].

(** [c * n], the string [c] repeated. *)
Fixpoint str_mul (c : string) (n : nat) : string :=
  match n with
  | 0 => ""
  | S n => c +:+ str_mul c n
  end.

(** The body [test_too_long_name] sends. *)
Definition too_long_name_body : RawDataset :=
  mkRawDataset None (Some "description") (Some (str_mul "a" 200)) (Some "node")
    (Some "id") (Some "url")
    None None None None None None None None None None None None
    [] [] [] (RawCitationValues []) [] [] [].

(** A body that breaks three limits at once. *)
Definition three_violations_body : RawDataset :=
  mkRawDataset None (Some "description") (Some (str_mul "a" 200))
    (Some (str_mul "n" 31)) (Some "id") (Some "url")
    None None None None None (Some "1234") None None None None None None
    [] [] [] (RawCitationValues []) [] [] [].

(** No two dataset rows share the pair (name, node). *)
Definition unique_natural_keys (s : Session) : Prop :=
  ∀ i j ri rj,
    datasets s !! i = Some ri → datasets s !! j = Some rj →
    orm_name ri = orm_name rj → orm_node ri = orm_node rj → i = j.

(** A dataset that cites publication 9 and has part 5, on a store that has
    neither. *)
Definition dangling_dataset : AIoDDataset :=
  mkAIoDDataset None "description" "dset" "openml" "1" "url"
    None None None None None None None None None None None
    (Some "mit") {[ "5" ]} ∅ {[ "alias" ]} (CitationIds {[ "9" ]}) []
    {[ "nlp" ]} [].

(** An optional string within a limit, and a required string that is given
    and within a limit. *)
Definition within (hi : nat) (v : option string) : Prop :=
  ∀ x, v = Some x → String.length x ≤ hi.

Definition given_within (hi : nat) (v : option string) : Prop :=
  ∃ x, v = Some x ∧ String.length x ≤ hi.

(** A distribution, a publication and the citations of a body within the
    limits of [AIoDDistribution] and [AIoDPublication]. *)
Definition distribution_within (d : AIoDDistribution) : Prop :=
  String.length (distr_content_url d) ≤ 150
  ∧ within 5000 (distr_description d)
  ∧ within 150 (distr_name d)
  ∧ within 150 (distr_encoding_format d).

Definition publication_within (p : AIoDPublication) : Prop :=
  within 250 (publ_title p) ∧ within 250 (publ_url p).

Definition citations_within (c : RawCitations) : Prop :=
  match c with
  | RawCitationValues _ => True
  | RawCitationRecords records => Forall publication_within records
  end.

(** The paths of the top-level fields of [AIoDDataset] that carry a
    constraint, in the order of their declaration. *)
Definition constrained_fields : list (list pyval) :=
  [[PyStr "description"]; [PyStr "name"]; [PyStr "node"];
   [PyStr "node_specific_identifier"]; [PyStr "same_as"]; [PyStr "creator"];
   [PyStr "issn"]; [PyStr "spatial_coverage"]; [PyStr "version"];
   [PyStr "license"]].

(** The distribution object [orm_to_aiod] builds from a download row. *)
Definition distribution_of (dd : OrmDataDownload) : AIoDDistribution :=
  mkAIoDDistribution (dd_content_url dd) (dd_content_size_kb dd)
    (dd_description dd) (dd_name dd) (dd_encoding_format dd).

(** A download row within the limits of [AIoDDistribution]. *)
Definition download_within_limits (dd : OrmDataDownload) : Prop :=
  String.length (dd_content_url dd) ≤ 150
  ∧ within 5000 (dd_description dd)
  ∧ within 150 (dd_name dd)
  ∧ within 150 (dd_encoding_format dd).

(** A dataset row within the limits of [AIoDDataset]. *)
Definition orm_within_limits (orm : OrmDataset) : Prop :=
  String.length (orm_description orm) ≤ 5000
  ∧ String.length (orm_name orm) ≤ 150
  ∧ String.length (orm_node orm) ≤ 30
  ∧ String.length (orm_node_specific_identifier orm) ≤ 250
  ∧ String.length (orm_same_as orm) ≤ 150
  ∧ within 150 (orm_creator orm)
  ∧ (∀ x, orm_issn orm = Some x → String.length x = 8)
  ∧ within 500 (orm_spatial_coverage orm)
  ∧ within 150 (orm_version orm)
  ∧ within 150 (row_key <$> orm_license orm)
  ∧ Forall download_within_limits (orm_distributions orm).

(** The keyword arguments [orm_to_aiod] passes to [AIoDDataset], given the
    distribution objects. *)
Definition flattened (orm : OrmDataset) (distributions : list AIoDDistribution)
    : RawDataset :=
  mkRawDataset
    (orm_id orm)
    (Some (orm_description orm))
    (Some (orm_name orm))
    (Some (orm_node orm))
    (Some (orm_node_specific_identifier orm))
    (Some (orm_same_as orm))
    (orm_creator orm)
    (orm_date_modified orm)
    (orm_date_published orm)
    (orm_funder orm)
    (orm_is_accessible_for_free orm)
    (orm_issn orm)
    (orm_size orm)
    (orm_spatial_coverage orm)
    (orm_temporal_coverage_from orm)
    (orm_temporal_coverage_to orm)
    (orm_version orm)
    (row_key <$> orm_license orm)
    ((PyInt ∘ rel_id) <$> orm_has_parts orm)
    ((PyInt ∘ rel_id) <$> orm_is_part orm)
    ((PyStr ∘ row_key) <$> orm_alternate_names orm)
    (RawCitationValues ((PyInt ∘ rel_id) <$> orm_citations orm))
    distributions
    ((PyStr ∘ row_key) <$> orm_keywords orm)
    ((λ mv, mkAIoDMeasurementValue (fst (row_key mv)) (snd (row_key mv)))
       <$> orm_measured_values orm).

(** The rows of a relation are rows of the table of a class. *)
Definition rows_stored (s : Session) (cls : OrmClass) (rows : list Related) : Prop :=
  ∀ r, r ∈ rows → rel_cls r = cls ∧ rel_id r ∈ table_ids s cls.

(** A dataset row that parts 1, with a download whose name is too long after
    one that is fine. *)
Definition stored_dataset : OrmDataset :=
  mkOrmDataset (Some 2%Z) "description" "dset2" "openml" "2" "openml.org/2"
    None None None None None None None None None None None
    (Some (mkRow 1 "mit")) [mkRelated ClsOrmDataset 1] [] [mkRow 1 "alias"] []
    [mkOrmDataDownload "https://example.org/data" None None (Some "csv") None]
    [mkRow 1 "nlp"; mkRow 2 "ml"] [mkRow 1 (Some "length", None)].

Definition overlong_dataset : OrmDataset :=
  mkOrmDataset (Some 2%Z) "description" (str_mul "a" 200) "openml" "2" "url"
    None None None None None None None None None None None
    None [] [] [] []
    [mkOrmDataDownload "https://example.org/data" None None (Some "csv") None;
     mkOrmDataDownload "https://example.org/more" None None
       (Some (str_mul "n" 151)) None]
    [] [].

(** The dataset [stored_dataset] flattens to. *)
Definition stored_dataset_flat : AIoDDataset :=
  mkAIoDDataset (Some 2%Z) "description" "dset2" "openml" "2" "openml.org/2"
    None None None None None None None None None None None
    (Some "mit") {[ "1" ]} ∅ {[ "alias" ]} (CitationIds ∅)
    [mkAIoDDistribution "https://example.org/data" None None (Some "csv") None]
    {[ "nlp"; "ml" ]} [mkAIoDMeasurementValue (Some "length") None].

(** * Properties *)

(** ** The session monad *)

Lemma bind_unfold {A B} (m : M A) (k : A → M B) (s : Session) :
  (m ≫= k) s =
  match m s with
  | (inl e, s') => (inl e, s')
  | (inr a, s') => k a s'
  end.
Proof. reflexivity. Qed.

Lemma bind_inr {A B} (m : M A) (k : A → M B) s b s' :
  (m ≫= k) s = (inr b, s') →
  ∃ a s1, m s = (inr a, s1) ∧ k a s1 = (inr b, s').
Proof.
  rewrite bind_unfold. destruct (m s) as [[e|a] s1]; [done|]. eauto.
Qed.

Lemma bind_inl {A B} (m : M A) (k : A → M B) s e s' :
  (m ≫= k) s = (inl e, s') →
  m s = (inl e, s') ∨ ∃ a s1, m s = (inr a, s1) ∧ k a s1 = (inl e, s').
Proof.
  rewrite bind_unfold. destruct (m s) as [[e1|a] s1]; intros Hk; [left; by simplify_eq|]. right. eauto.
Qed.

(** ** Joining strings *)

Lemma str_join_strings sep (l : list string) :
  str_join sep (PyStr <$> l) = inr (join sep l).
Proof.
  induction l as [|x [|y l] IH]; [done..|].
  change (str_join sep (PyStr <$> x :: y :: l))
    with (match str_join sep (PyStr <$> y :: l) with
          | inl e => inl e
          | inr tail => inr (x +:+ sep +:+ tail)
          end).
  by rewrite IH.
Qed.

(** ** Reading a string as a key *)

Lemma digit_of_pretty (x : N) :
  (x < 10)%N → digit_of (pretty_N_char x) = Some x.
Proof.
  intros Hx. destruct x as [|p]; [done|].
  do 4 (destruct p as [p|p|]; try done; try lia).
Qed.

Lemma read_digits_pretty_go (x : N) :
  ∃ k : N, ∀ acc s,
    read_digits acc (pretty_N_go x s) = read_digits (acc * 10 ^ k + x)%N s.
Proof.
  induction (N.lt_wf_0 x) as [x _ IH].
  destruct (decide (0 < x)%N) as [Hx|Hx].
  - destruct (IH (x `div` 10)%N) as [k Hk]; [by apply N.div_lt|].
    exists (k + 1)%N. intros acc s.
    rewrite pretty_N_go_step by done. rewrite Hk. simpl.
    rewrite digit_of_pretty by (by apply N.mod_lt).
    f_equal. rewrite N.pow_add_r, N.pow_1_r.
    pose proof (N.div_mod x 10). lia.
  - assert (x = 0%N) as -> by lia. exists 0%N. intros acc s.
    rewrite pretty_N_go_0. f_equal. lia.
Qed.

Lemma read_unsigned_pretty (p : positive) :
  read_unsigned (pretty (N.pos p)) = Some (Z.pos p).
Proof.
  unfold pretty, pretty_N. rewrite decide_False by done.
  destruct (read_digits_pretty_go (N.pos p)) as [k Hk].
  pose proof (Hk 0%N "") as Hread. simpl in Hread.
  unfold read_unsigned.
  destruct (pretty_N_go (N.pos p) "") as [|c rest] eqn:Hs.
  - simpl in Hread. by injection Hread.
  - by rewrite Hread.
Qed.

(** The decimal text of an integer is read as that integer. *)
Lemma read_decimal_pretty (i : Z) : read_decimal (pretty i) = Some i.
Proof.
  destruct i as [|p|p].
  - done.
  - change (pretty (Z.pos p)) with (pretty (N.pos p)).
    unfold read_decimal. by rewrite read_unsigned_pretty.
  - change (pretty (Z.neg p)) with (String "-" (pretty (N.pos p))).
    change (read_decimal (String "-" (pretty (N.pos p))))
      with (Z.opp <$> read_unsigned (pretty (N.pos p))).
    by rewrite read_unsigned_pretty.
Qed.

Lemma canonical_Some x i : canonical x = Some i ↔ pretty i = x.
Proof.
  unfold canonical. split.
  - destruct (read_decimal x) as [j|]; [|done].
    case_decide as Hj; [|done]. by intros [= <-].
  - intros <-. rewrite read_decimal_pretty. by rewrite decide_True.
Qed.

Lemma canonical_pretty i : canonical (pretty i) = Some i.
Proof. by apply canonical_Some. Qed.

Lemma reads_canonical s x i : canonical x = Some i → reads s x = Some i.
Proof. unfold reads. by intros ->. Qed.

Lemma reads_pretty s i : reads s (pretty i) = Some i.
Proof. apply reads_canonical, canonical_pretty. Qed.

(** ** Counting the values of a partial function on a list *)

Section omap_facts.
Context {A B : Type} (f : A → option B).

Lemma omap_cons_Some a l b : f a = Some b → omap f (a :: l) = b :: omap f l.
Proof. intros Hb. simpl. by rewrite Hb. Qed.

Lemma omap_cons_None a l : f a = None → omap f (a :: l) = omap f l.
Proof. intros Hb. simpl. by rewrite Hb. Qed.

Lemma omap_length_le l : length (omap f l) ≤ length l.
Proof.
  induction l as [|a l IH]; [done|].
  destruct (f a) as [b|] eqn:Hb.
  - rewrite (omap_cons_Some a l b Hb). simpl. lia.
  - rewrite (omap_cons_None a l Hb). simpl. lia.
Qed.

Lemma omap_length_eq l :
  length (omap f l) = length l ↔ ∀ x, x ∈ l → is_Some (f x).
Proof.
  induction l as [|a l IH].
  - split; [|done]. intros _ x Hx. by apply elem_of_nil in Hx.
  - destruct (f a) as [b|] eqn:Hb.
    + rewrite (omap_cons_Some a l b Hb). simpl. split.
      * intros Hlen x [->|Hx]%elem_of_cons; [by rewrite Hb|].
        apply IH; [lia | done].
      * intros Hall. f_equal. apply IH. intros x Hx. apply Hall.
        by apply elem_of_cons; right.
    + rewrite (omap_cons_None a l Hb). simpl. split.
      * intros Hlen. pose proof (omap_length_le l). lia.
      * intros Hall. destruct (Hall a) as [b Hb']; [by apply elem_of_cons; left|].
        congruence.
Qed.

Lemma NoDup_omap_inj l x y b :
  NoDup (omap f l) → x ∈ l → y ∈ l → f x = Some b → f y = Some b → x = y.
Proof.
  induction l as [|a l IH]; [by intros _ ?%elem_of_nil|].
  intros Hnd Hx Hy Hfx Hfy.
  assert (∀ z, z ∈ l → f z = Some b → f a = Some b → False) as Hclash.
  { intros z Hz Hfz Hfa. rewrite (omap_cons_Some a l b Hfa) in Hnd.
    apply NoDup_cons in Hnd as [Hnot _]. apply Hnot.
    apply list_elem_of_omap. eauto. }
  assert (NoDup (omap f l)) as Hnd'.
  { destruct (f a) as [c|] eqn:Hc.
    - rewrite (omap_cons_Some a l c Hc) in Hnd. by apply NoDup_cons in Hnd as [_ ?].
    - by rewrite (omap_cons_None a l Hc) in Hnd. }
  apply elem_of_cons in Hx as [->|Hx], Hy as [->|Hy].
  - done.
  - by destruct (Hclash y Hy Hfy Hfx).
  - by destruct (Hclash x Hx Hfx Hfy).
  - by apply IH.
Qed.

Lemma NoDup_omap l :
  NoDup l →
  (∀ x y b, x ∈ l → y ∈ l → f x = Some b → f y = Some b → x = y) →
  NoDup (omap f l).
Proof.
  induction 1 as [|a l Hnot Hnd IH]; intros Hinj; [apply NoDup_nil_2|].
  assert (NoDup (omap f l)) as Hnd'.
  { apply IH. intros x y b Hx Hy. apply Hinj; by apply elem_of_cons; right. }
  destruct (f a) as [b|] eqn:Hb.
  - rewrite (omap_cons_Some a l b Hb). apply NoDup_cons. split; [|done].
    intros (z & Hz & Hfz)%list_elem_of_omap.
    assert (a = z) as ->; [|done].
    apply (Hinj a z b); [by apply elem_of_cons; left
                        | by apply elem_of_cons; right | done..].
  - by rewrite (omap_cons_None a l Hb).
Qed.
End omap_facts.

(** ** What a statement selects *)

Lemma table_ids_NoDup s cls : NoDup (table_ids s cls).
Proof. destruct cls; apply NoDup_elements. Qed.

Lemma select_rows_ids s q :
  rel_id <$> select_rows s q =
  filter (λ i, i ∈ set_omap (D:=gset Z) (reads s) (sel_ids q))
         (table_ids s (sel_cls q)).
Proof.
  unfold select_rows. rewrite <- list_fmap_compose.
  apply list_fmap_id.
Qed.

Lemma select_rows_cls s q r : r ∈ select_rows s q → rel_cls r = sel_cls q.
Proof.
  unfold select_rows. intros (i & -> & _)%list_elem_of_fmap. done.
Qed.

Lemma select_rows_NoDup s q : NoDup (rel_id <$> select_rows s q).
Proof. rewrite select_rows_ids. apply NoDup_filter, table_ids_NoDup. Qed.

Lemma related_eq (r1 r2 : Related) :
  rel_cls r1 = rel_cls r2 → rel_id r1 = rel_id r2 → r1 = r2.
Proof. destruct r1, r2. simpl. by intros -> ->. Qed.

Lemma elem_of_select_ids s q i :
  i ∈ rel_id <$> select_rows s q ↔
  i ∈ table_ids s (sel_cls q) ∧ ∃ x, x ∈ sel_ids q ∧ reads s x = Some i.
Proof.
  rewrite select_rows_ids, list_elem_of_filter, elem_of_set_omap. tauto.
Qed.

(** A row is selected exactly when it is a row of the table and one of the
    identifiers is read as its key. *)
Lemma elem_of_select_rows s q r :
  r ∈ select_rows s q ↔
  rel_cls r = sel_cls q ∧ rel_id r ∈ table_ids s (sel_cls q)
  ∧ ∃ x, x ∈ sel_ids q ∧ reads s x = Some (rel_id r).
Proof.
  split.
  - intros Hr. split; [by apply (select_rows_cls s q)|].
    apply elem_of_select_ids, list_elem_of_fmap. eauto.
  - intros (Hcls & Hin & Hx).
    assert (rel_id r ∈ rel_id <$> select_rows s q) as Hsel
      by (by apply elem_of_select_ids).
    apply list_elem_of_fmap in Hsel as (r' & Hid & Hr').
    assert (r = r') as ->; [|done].
    apply related_eq; [|done]. by rewrite (select_rows_cls s q r' Hr').
Qed.

Lemma select_rows_empty s cls : select_rows s (mkSelect cls ∅) = [].
Proof.
  destruct (select_rows s (mkSelect cls ∅)) as [|r rows] eqn:Hrows; [done|].
  assert (r ∈ select_rows s (mkSelect cls ∅)) as Hr
    by (rewrite Hrows; apply list_elem_of_here).
  apply elem_of_select_rows in Hr as (_ & _ & x & Hx & _).
  by apply elem_of_empty in Hx.
Qed.

(** The count of the selected rows is the count of the identifiers exactly
    when the statement resolves: a missing identifier, or two identifiers
    read as one key, leave fewer rows than identifiers. *)
Lemma select_rows_complete s q :
  length (select_rows s q) = size (sel_ids q) ↔ resolves s q.
Proof.
  rewrite <- (length_fmap rel_id).
  change (size (sel_ids q)) with (length (elements (sel_ids q))).
  set (keys := omap (reads s) (elements (sel_ids q))).
  assert (∀ i, i ∈ rel_id <$> select_rows s q → i ∈ keys) as Hsub.
  { intros i (_ & x & Hx & Hi)%elem_of_select_ids.
    apply list_elem_of_omap. exists x. by rewrite elem_of_elements. }
  pose proof (omap_length_le (reads s) (elements (sel_ids q))) as Hle.
  pose proof (NoDup_submseteq _ _ (select_rows_NoDup s q) Hsub) as Hsubm.
  split.
  - intros Hlen.
    pose proof (submseteq_length _ _ Hsubm) as Hle'.
    assert (length keys = length (elements (sel_ids q))) as Hkeys
      by (unfold keys in *; lia).
    assert (rel_id <$> select_rows s q ≡ₚ keys) as Hperm.
    { apply submseteq_length_Permutation; [done|]. unfold keys in *. lia. }
    assert (NoDup keys) as Hnd
      by (rewrite <- Hperm; apply select_rows_NoDup).
    pose proof (proj1 (omap_length_eq (reads s) _) Hkeys) as Hsome.
    split.
    + intros x Hx. destruct (Hsome x) as [i Hi]; [by apply elem_of_elements|].
      exists i. split; [|done].
      assert (i ∈ keys) as Hin
        by (apply list_elem_of_omap; exists x; by rewrite elem_of_elements).
      rewrite <- Hperm in Hin. by apply elem_of_select_ids in Hin as [? _].
    + intros x Hx y Hy Heq.
      destruct (Hsome x) as [i Hi]; [by apply elem_of_elements|].
      apply (NoDup_omap_inj (reads s) (elements (sel_ids q)) x y i);
        [done | by apply elem_of_elements | by apply elem_of_elements
        | done | congruence].
  - intros [Hpresent Hdistinct].
    assert (length keys = length (elements (sel_ids q))) as <-.
    { apply omap_length_eq. intros x Hx%elem_of_elements.
      destruct (Hpresent x Hx) as (i & _ & Hi). by rewrite Hi. }
    apply Permutation_length, NoDup_Permutation.
    + apply select_rows_NoDup.
    + apply NoDup_omap; [apply NoDup_elements|].
      intros x y b Hx%elem_of_elements Hy%elem_of_elements Hfx Hfy.
      apply Hdistinct; [done..|congruence].
    + intros i. split; [apply Hsub|].
      intros (x & Hx%elem_of_elements & Hi)%list_elem_of_omap.
      apply elem_of_select_ids. split; [|eauto].
      destruct (Hpresent x Hx) as (j & Hj & Hxj). congruence.
Qed.

Lemma elem_of_missing s q x :
  x ∈ missing s q ↔ x ∈ sel_ids q ∧ ¬ present s (sel_cls q) x.
Proof. unfold missing. rewrite elem_of_filter. tauto. Qed.

Lemma missing_empty_iff s q :
  missing s q = ∅ ↔ ∀ x, x ∈ sel_ids q → present s (sel_cls q) x.
Proof.
  split.
  - intros Hmiss x Hx.
    destruct (decide (present s (sel_cls q) x)) as [|Hnot]; [done|].
    assert (x ∈ missing s q) as Hm by (by apply elem_of_missing).
    rewrite Hmiss in Hm. by apply elem_of_empty in Hm.
  - intros Hall. apply set_eq. intros x.
    rewrite elem_of_missing, elem_of_empty. split; [|done].
    intros [Hx Hnot]. by apply Hnot, Hall.
Qed.

(** A missing identifier keeps the statement from resolving. *)
Lemma missing_not_resolves s q : missing s q ≠ ∅ → ¬ resolves s q.
Proof. intros Hne [Hall _]. by apply Hne, missing_empty_iff. Qed.

Lemma resolves_empty s cls : resolves s (mkSelect cls ∅).
Proof.
  split; [intros x Hx | intros x Hx]; by apply elem_of_empty in Hx.
Qed.

(** ** [_retrieve_related_objects_by_ids] *)

Lemma retrieve_empty cls s :
  _retrieve_related_objects_by_ids ∅ cls s = (inr [], s).
Proof. reflexivity. Qed.

Lemma retrieve_nonempty ids cls s :
  ids ≠ ∅ →
  _retrieve_related_objects_by_ids ids cls s =
  let q := mkSelect cls ids in
  let related_objects := select_rows s q in
  if bool_decide (length related_objects ≠ size ids) then
    match
      str_join ", "
        (elements (set_map (D:=gset pyval) PyStr ids
                   ∖ list_to_set ((PyInt ∘ rel_id) <$> related_objects)))
    with
    | inl e => (inl e, record_statement q s)
    | inr joined =>
        (inl (HTTPException 404
                (not_found_prefix +:+ joined +:+ not_found_suffix)),
         record_statement q s)
    end
  else (inr related_objects, record_statement q s).
Proof.
  intros Hne. unfold _retrieve_related_objects_by_ids.
  rewrite bool_decide_eq_true_2.
  - rewrite bind_unfold. simpl.
    case_bool_decide; [|done].
    by destruct (str_join _ _).
  - assert (size ids ≠ 0); [|lia].
    rewrite size_non_empty_iff. by intros ->%leibniz_equiv.
Qed.

(** No string equals an integer, so the difference removes nothing. *)
Lemma ids_not_found_all (ids : gset string) (related_objects : list Related) :
  set_map (D:=gset pyval) PyStr ids
    ∖ list_to_set ((PyInt ∘ rel_id) <$> related_objects)
  = set_map PyStr ids.
Proof.
  apply set_eq. intros v.
  rewrite elem_of_difference, elem_of_map, elem_of_list_to_set, list_elem_of_fmap.
  split; [tauto|]. intros (x & -> & Hx). split; [eauto|].
  intros (r & Hr & _). done.
Qed.

Lemma elements_set_map_PyStr (ids : gset string) :
  ∃ l, elements (set_map (D:=gset pyval) PyStr ids) = PyStr <$> l
       ∧ l ≡ₚ elements ids.
Proof.
  assert (elements (set_map (D:=gset pyval) PyStr ids)
          ≡ₚ PyStr <$> elements ids) as Hperm.
  { unfold set_map. apply elements_list_to_set.
    apply NoDup_fmap_2; [by intros ?? [= ->] | apply NoDup_elements]. }
  apply Permutation_map_inv in Hperm as (l & Hl & Hp).
  exists l. split; [done | by symmetry].
Qed.

(** Whenever the resolution fails, the detail enumerates every identifier
    that was asked for. *)
Lemma retrieve_failure ids cls s :
  ¬ resolves s (mkSelect cls ids) →
  ∃ l, l ≡ₚ elements ids ∧
       _retrieve_related_objects_by_ids ids cls s =
       (inl (HTTPException 404 (not_found_detail l)),
        record_statement (mkSelect cls ids) s).
Proof.
  intros Hnot.
  assert (ids ≠ ∅) as Hne.
  { intros ->. apply Hnot, resolves_empty. }
  rewrite retrieve_nonempty by done. simpl.
  rewrite bool_decide_eq_true_2.
  - rewrite ids_not_found_all.
    destruct (elements_set_map_PyStr ids) as (l & -> & Hl).
    exists l. split; [done|]. by rewrite str_join_strings.
  - intros Hlen. by apply Hnot, (select_rows_complete s (mkSelect cls ids)).
Qed.

Lemma record_no_statements s : record_statements [] s = s.
Proof. destruct s. unfold record_statements. simpl. by rewrite app_nil_r. Qed.

Lemma retrieve_resolved ids cls s :
  resolves s (mkSelect cls ids) →
  _retrieve_related_objects_by_ids ids cls s =
  (inr (select_rows s (mkSelect cls ids)),
   record_statements (statements_of cls ids) s).
Proof.
  intros Hres. unfold statements_of. case_decide as Hids.
  - subst ids. by rewrite retrieve_empty, record_no_statements, select_rows_empty.
  - rewrite retrieve_nonempty by done. simpl.
    rewrite bool_decide_eq_false_2; [done|].
    intros Hlen. by apply Hlen, (select_rows_complete s (mkSelect cls ids)).
Qed.

(** C6. For the empty identifier set the resolution executes no statement
    and returns the empty collection, whatever the class: the session,
    with the statements it has executed, is handed back as it was. *)
Theorem retrieve_empty_no_lookup (cls : OrmClass) (s : Session) :
  _retrieve_related_objects_by_ids ∅ cls s = (inr [], s)
  ∧ executed (_retrieve_related_objects_by_ids ∅ cls s).2 = executed s.
Proof. by rewrite retrieve_empty. Qed.

(** For comparison: a set with an element costs exactly one statement. *)
Lemma retrieve_nonempty_one_lookup ids cls s :
  ids ≠ ∅ →
  executed (_retrieve_related_objects_by_ids ids cls s).2
  = executed s ++ [mkSelect cls ids].
Proof.
  intros Hne. rewrite retrieve_nonempty by done. simpl.
  case_bool_decide; [|done]. by destruct (str_join _ _).
Qed.

(** The detail of a failure is the same for both classes, and enumerates all
    the identifiers. *)
Lemma retrieve_detail_ignores_class ids s e cls :
  (_retrieve_related_objects_by_ids ids cls s).1 = inl e →
  ∃ l, l ≡ₚ elements ids ∧ e = HTTPException 404 (not_found_detail l).
Proof.
  intros He.
  destruct (decide (resolves s (mkSelect cls ids))) as [Hm|Hm].
  - by rewrite (retrieve_resolved ids cls s Hm) in He.
  - destruct (retrieve_failure ids cls s Hm) as (l & Hl & Hr).
    rewrite Hr in He. exists l. split; [done|]. by simplify_eq/=.
Qed.

(** C1. With dataset 1 in the store, resolving the parts ["1"] and ["2"]
    fails with status 404, but the detail names ["1"] as well, which is
    present: the identifiers asked for are strings, the keys of the rows are
    integers, and the set difference between them removes nothing.  (The
    order within the detail is the one [elements] gives; Python leaves it
    open.)  In general, a resolution with a missing identifier fails with
    status 404 and a detail that enumerates all the identifiers asked for;
    and so does every resolution that fails, for whatever reason. *)
Theorem retrieve_reports_present_identifier :
  (_retrieve_related_objects_by_ids {[ "1"; "2" ]} ClsOrmDataset
     one_dataset_session).1
  = inl (HTTPException 404 "Dataset parts '1, 2' not found in the database.")
  ∧ present one_dataset_session ClsOrmDataset "1"
  ∧ missing one_dataset_session (mkSelect ClsOrmDataset {[ "1"; "2" ]}) = {[ "2" ]}
  ∧ (∀ ids cls s,
      missing s (mkSelect cls ids) ≠ ∅ →
      ∃ l, l ≡ₚ elements ids
           ∧ (_retrieve_related_objects_by_ids ids cls s).1
             = inl (HTTPException 404 (not_found_detail l)))
  ∧ ∀ ids cls s e,
      (_retrieve_related_objects_by_ids ids cls s).1 = inl e →
      ∃ l, l ≡ₚ elements ids ∧ e = HTTPException 404 (not_found_detail l).
Proof.
  split_and!.
  - by vm_compute.
  - exists 1%Z. split; [|done]. unfold table_ids, one_dataset_session. simpl.
    rewrite dom_singleton_L, elements_singleton. by apply list_elem_of_singleton.
  - by vm_compute.
  - intros ids cls s Hmiss%missing_not_resolves.
    destruct (retrieve_failure ids cls s Hmiss) as (l & Hl & Hr).
    exists l. by rewrite Hr.
  - intros ids cls s e He. by apply (retrieve_detail_ignores_class ids s e cls).
Qed.

(** C4. A failed resolution of citations against the publications reports
    "Dataset parts": the text of the detail is fixed, and whatever the class
    and the identifiers, the detail of a failure starts with it. *)
Theorem retrieve_publication_reports_dataset_parts :
  (_retrieve_related_objects_by_ids {[ "7" ]} ClsOrmPublication
     empty_session).1
  = inl (HTTPException 404 "Dataset parts '7' not found in the database.")
  ∧ ∀ ids cls s e,
      (_retrieve_related_objects_by_ids ids cls s).1 = inl e →
      ∃ l, l ≡ₚ elements ids
           ∧ e = HTTPException 404
                   ("Dataset parts '" +:+ join ", " l
                    +:+ "' not found in the database.").
Proof.
  split; [by vm_compute|].
  intros ids cls s e He. by apply (retrieve_detail_ignores_class ids s e cls).
Qed.

(** ** [as_unique] *)

Section as_unique_facts.
Context {K : Type} `{EqDecision K}.
Implicit Types (k : K) (t : list (Row K)) (r : Row K).

Lemma rows_with_key_app k t1 t2 :
  rows_with_key k (t1 ++ t2) = rows_with_key k t1 ++ rows_with_key k t2.
Proof. apply filter_app. Qed.

Lemma elem_of_rows_with_key k t r :
  r ∈ rows_with_key k t ↔ row_key r = k ∧ r ∈ t.
Proof. unfold rows_with_key. by rewrite list_elem_of_filter. Qed.

(** The first row with a key stays the first when rows are appended. *)
Lemma first_row_stable k t ext r :
  head (rows_with_key k t) = Some r →
  head (rows_with_key k (t ++ ext)) = Some r.
Proof.
  rewrite rows_with_key_app. destruct (rows_with_key k t); [done|].
  by intros [= ->].
Qed.

Lemma as_unique_existing k t r :
  head (rows_with_key k t) = Some r → as_unique k t = (r, t).
Proof. unfold as_unique. by intros ->. Qed.

Lemma as_unique_key k t : row_key (as_unique k t).1 = k.
Proof.
  unfold as_unique. destruct (head (rows_with_key k t)) as [r|] eqn:Hhd; [|done].
  apply head_Some_elem_of, elem_of_rows_with_key in Hhd. simpl. tauto.
Qed.


(** The row returned is the first row with the key in the table left. *)
Lemma as_unique_first k t :
  head (rows_with_key k (as_unique k t).2) = Some (as_unique k t).1.
Proof.
  unfold as_unique. destruct (head (rows_with_key k t)) as [r|] eqn:Hhd; [done|].
  simpl. rewrite rows_with_key_app.
  apply head_None in Hhd. rewrite Hhd. simpl.
  unfold rows_with_key. rewrite filter_cons. simpl.
  by rewrite decide_True.
Qed.

(** Resolving a key again, at once or after other rows were added, gives
    the same row and adds nothing. *)
Lemma as_unique_again k t ext :
  as_unique k ((as_unique k t).2 ++ ext)
  = ((as_unique k t).1, (as_unique k t).2 ++ ext).
Proof. apply as_unique_existing, first_row_stable, as_unique_first. Qed.




(** ** Resolving many keys *)

Lemma resolve_all_cons k ks t :
  resolve_all (k :: ks) t =
  ((as_unique k t).1 :: (resolve_all ks (as_unique k t).2).1,
   (resolve_all ks (as_unique k t).2).2).
Proof.
  change (resolve_all (k :: ks) t)
    with (let '(r, t1) := as_unique k t in
          let '(rs, t2) := resolve_all ks t1 in (r :: rs, t2)).
  destruct (as_unique k t) as [r t1]. simpl.
  by destruct (resolve_all ks t1) as [rs t2].
Qed.

Lemma resolve_all_keys ks t : row_key <$> (resolve_all ks t).1 = ks.
Proof.
  revert t. induction ks as [|k ks IH]; intros t; [done|].
  rewrite resolve_all_cons. simpl. by rewrite as_unique_key, IH.
Qed.







End as_unique_facts.

(** ** [mapM] over the lookup tables *)

Lemma mapM_nil {A B} (f : A → M B) s : mapM f [] s = (inr [], s).
Proof. reflexivity. Qed.

Lemma mapM_cons {A B} (f : A → M B) x l s :
  mapM f (x :: l) s =
  match f x s with
  | (inl e, s1) => (inl e, s1)
  | (inr y, s1) =>
      match mapM f l s1 with
      | (inl e, s2) => (inl e, s2)
      | (inr k, s2) => (inr (y :: k), s2)
      end
  end.
Proof.
  change (mapM f (x :: l)) with (y ← f x; k ← mapM f l; mret (y :: k)).
  rewrite bind_unfold. destruct (f x s) as [[e|y] s1]; [done|].
  rewrite bind_unfold. by destruct (mapM f l s1) as [[e|k] s2].
Qed.

Lemma set_alternate_names_id s : set_alternate_names (alternate_names s) s = s.
Proof. by destruct s. Qed.

Lemma set_keywords_id s : set_keywords (keywords s) s = s.
Proof. by destruct s. Qed.

Lemma set_measured_values_id s : set_measured_values (measured_values s) s = s.
Proof. by destruct s. Qed.

Lemma set_licenses_id s : set_licenses (licenses s) s = s.
Proof. by destruct s. Qed.

Lemma mapM_alternate_names ks s :
  mapM OrmAlternateName_as_unique ks s =
  (inr (resolve_all ks (alternate_names s)).1,
   set_alternate_names (resolve_all ks (alternate_names s)).2 s).
Proof.
  revert s. induction ks as [|k ks IH]; intros s.
  - rewrite mapM_nil. simpl. by rewrite set_alternate_names_id.
  - rewrite mapM_cons, resolve_all_cons. unfold OrmAlternateName_as_unique at 1.
    destruct (as_unique k (alternate_names s)) as [r t1]. by rewrite IH.
Qed.

Lemma mapM_keywords ks s :
  mapM OrmKeyword_as_unique ks s =
  (inr (resolve_all ks (keywords s)).1,
   set_keywords (resolve_all ks (keywords s)).2 s).
Proof.
  revert s. induction ks as [|k ks IH]; intros s.
  - rewrite mapM_nil. simpl. by rewrite set_keywords_id.
  - rewrite mapM_cons, resolve_all_cons. unfold OrmKeyword_as_unique at 1.
    destruct (as_unique k (keywords s)) as [r t1]. by rewrite IH.
Qed.

Lemma mapM_measured_values mvs s :
  mapM (λ mv, OrmMeasuredValue_as_unique (mv_variable mv) (mv_technique mv)) mvs s =
  (inr (resolve_all (measured_key <$> mvs) (measured_values s)).1,
   set_measured_values (resolve_all (measured_key <$> mvs) (measured_values s)).2 s).
Proof.
  revert s. induction mvs as [|mv mvs IH]; intros s.
  - rewrite mapM_nil. simpl. by rewrite set_measured_values_id.
  - rewrite mapM_cons, fmap_cons, resolve_all_cons.
    unfold OrmMeasuredValue_as_unique at 1.
    change (measured_key mv) with (mv_variable mv, mv_technique mv).
    destruct (as_unique _ (measured_values s)) as [r t1]. by rewrite IH.
Qed.

(** ** [aiod_to_orm] *)

Lemma license_step aiod s :
  match aiod_license aiod with
  | Some name => r ← OrmLicense_as_unique name; mret (M:=M) (Some r)
  | None => mret None
  end s
  = (inr (license_rows aiod s).1, set_licenses (license_rows aiod s).2 s).
Proof.
  unfold license_rows. destruct (aiod_license aiod) as [name|].
  - rewrite bind_unfold. unfold OrmLicense_as_unique.
    by destruct (as_unique name (licenses s)) as [r t].
  - simpl. by rewrite set_licenses_id.
Qed.

Lemma citations_step_resolved aiod s :
  citations_resolve aiod s →
  match aiod_citations aiod with
  | CitationRecords _ => mret []
  | CitationIds ids => _retrieve_related_objects_by_ids ids ClsOrmPublication
  end s
  = (inr (citation_rows aiod s), record_statements (citation_statements aiod) s).
Proof.
  unfold citations_resolve, citation_rows, citation_statements.
  destruct (aiod_citations aiod) as [ids|records].
  - apply retrieve_resolved.
  - intros _. by rewrite record_no_statements.
Qed.

(** When every relation resolves the conversion succeeds, and its result
    and the session it leaves are these. *)
Lemma aiod_to_orm_resolvable aiod s :
  resolvable aiod s →
  aiod_to_orm aiod s = (inr (converted aiod s), session_after aiod s).
Proof.
  intros (Hc & Hhp & Hip). unfold aiod_to_orm.
  rewrite bind_unfold, citations_step_resolved by done.
  rewrite bind_unfold, retrieve_resolved by done.
  rewrite bind_unfold, retrieve_resolved by done.
  rewrite bind_unfold, license_step.
  rewrite bind_unfold, mapM_alternate_names.
  rewrite bind_unfold, mapM_keywords.
  rewrite bind_unfold, mapM_measured_values.
  reflexivity.
Qed.

(** Otherwise it raises the 404 of the first resolution that fails, and the
    tables are as they were. *)
Lemma aiod_to_orm_unresolvable aiod s :
  ¬ resolvable aiod s →
  ∃ l s', aiod_to_orm aiod s = (inl (HTTPException 404 (not_found_detail l)), s')
          ∧ datasets s' = datasets s ∧ publications s' = publications s
          ∧ licenses s' = licenses s ∧ alternate_names s' = alternate_names s
          ∧ keywords s' = keywords s ∧ measured_values s' = measured_values s.
Proof.
  intros Hnot. unfold aiod_to_orm.
  destruct (decide (citations_resolve aiod s)) as [Hc|Hc].
  - rewrite bind_unfold, citations_step_resolved by done.
    set (s1 := record_statements (citation_statements aiod) s).
    destruct (decide (resolves s (mkSelect ClsOrmDataset (aiod_has_parts aiod))))
      as [Hhp|Hhp].
    + rewrite bind_unfold, (retrieve_resolved _ _ s1) by done.
      set (s2 := record_statements _ s1).
      destruct (decide (resolves s (mkSelect ClsOrmDataset (aiod_is_part aiod))))
        as [Hip|Hip]; [by destruct Hnot|].
      destruct (retrieve_failure (aiod_is_part aiod) ClsOrmDataset s2 Hip)
        as (l & _ & Hl).
      rewrite bind_unfold, Hl. exists l. eexists. by split.
    + destruct (retrieve_failure (aiod_has_parts aiod) ClsOrmDataset s1 Hhp)
        as (l & _ & Hl).
      rewrite bind_unfold, Hl. exists l. eexists. by split.
  - unfold citations_resolve in Hc.
    destruct (aiod_citations aiod) as [ids|records]; [|done].
    destruct (retrieve_failure ids ClsOrmPublication s Hc) as (l & _ & Hl).
    rewrite bind_unfold, Hl. exists l. eexists. by split.
Qed.

Lemma aiod_to_orm_inr aiod s orm s' :
  aiod_to_orm aiod s = (inr orm, s') →
  resolvable aiod s ∧ orm = converted aiod s ∧ s' = session_after aiod s.
Proof.
  intros Hconv. destruct (decide (resolvable aiod s)) as [Hr|Hr].
  - rewrite aiod_to_orm_resolvable in Hconv by done. by simplify_eq.
  - destruct (aiod_to_orm_unresolvable aiod s Hr) as (l & s1 & Hl & _).
    by rewrite Hl in Hconv.
Qed.

(** C5. When the citations are embedded publication records, the conversion
    leaves the publications table as it was, and the record it returns has no
    citations: it returns one whenever the parts resolve, and with no
    citations whenever it returns one. *)
Theorem embedded_citations_discarded
    (aiod : AIoDDataset) (s : Session) (records : list AIoDPublication) :
  aiod_citations aiod = CitationRecords records →
  publications (aiod_to_orm aiod s).2 = publications s
  ∧ (∀ orm, (aiod_to_orm aiod s).1 = inr orm → orm_citations orm = [])
  ∧ (resolves s (mkSelect ClsOrmDataset (aiod_has_parts aiod)) →
     resolves s (mkSelect ClsOrmDataset (aiod_is_part aiod)) →
     ∃ orm, (aiod_to_orm aiod s).1 = inr orm ∧ orm_citations orm = []).
Proof.
  intros Hrec.
  assert (citation_rows aiod s = []) as Hrows
    by (unfold citation_rows; by rewrite Hrec).
  assert (citations_resolve aiod s) as Hc
    by (unfold citations_resolve; by rewrite Hrec).
  split_and!.
  - destruct (decide (resolvable aiod s)) as [Hr|Hr].
    + by rewrite aiod_to_orm_resolvable.
    + destruct (aiod_to_orm_unresolvable aiod s Hr) as (l & s' & -> & _ & Hp & _).
      done.
  - intros orm Horm. destruct (aiod_to_orm aiod s) as [res s'] eqn:Hconv.
    simpl in Horm. subst res.
    apply aiod_to_orm_inr in Hconv as (_ & -> & _). done.
  - intros Hhp Hip. exists (converted aiod s).
    rewrite aiod_to_orm_resolvable; done.
Qed.

Lemma embedded_citations_discarded_witness :
  let aiod := example_dataset "dset" ∅ (CitationRecords [example_publication]) in
  publications (aiod_to_orm aiod empty_session).2 = publications empty_session
  ∧ (∀ orm, (aiod_to_orm aiod empty_session).1 = inr orm → orm_citations orm = [])
  ∧ (resolves empty_session (mkSelect ClsOrmDataset (aiod_has_parts aiod)) →
     resolves empty_session (mkSelect ClsOrmDataset (aiod_is_part aiod)) →
     ∃ orm, (aiod_to_orm aiod empty_session).1 = inr orm ∧ orm_citations orm = []).
Proof.
  apply (embedded_citations_discarded _ empty_session [example_publication]).
  reflexivity.
Defined.





(** The scenario in numbers: three keyword rows in the end, and the row of
    ["ai"] is the same row in both records. *)
Example scenario_three_keyword_rows :
  length (keywords session_AB) = 3
  ∧ rows_with_key "ai" (keywords session_AB) = [mkRow 2 "ai"]
  ∧ mkRow 2 "ai" ∈ orm_keywords (converted dataset_A empty_session)
  ∧ mkRow 2 "ai" ∈ orm_keywords (converted dataset_B session_A).
Proof.
  split_and!.
  - by vm_compute.
  - by vm_compute.
  - apply (bool_decide_unpack _). by vm_compute.
  - apply (bool_decide_unpack _). by vm_compute.
Qed.

(** ** The set fields *)

Lemma elem_of_set_of_str values x :
  x ∈ set_of_str values ↔ ∃ v, v ∈ values ∧ py_str v = x.
Proof.
  unfold set_of_str. rewrite elem_of_list_to_set, list_elem_of_fmap.
  split; intros (v & Hv1 & Hv2); eauto.
Qed.

Lemma AIoDDataset_init_inr raw aiod :
  AIoDDataset_init raw = inr aiod →
  dataset_errors raw = []
  ∧ aiod_has_parts aiod = set_of_str (raw_has_parts raw)
  ∧ aiod_is_part aiod = set_of_str (raw_is_part raw)
  ∧ aiod_alternate_names aiod = set_of_str (raw_alternate_names raw)
  ∧ aiod_keywords aiod = set_of_str (raw_keywords raw).
Proof.
  unfold AIoDDataset_init. destruct (dataset_errors raw); [|done].
  by intros [= <-].
Qed.

(** C10. Validation turns each of [has_parts], [is_part], [alternate_names]
    and [keywords] into the set of the strings supplied, so that a string
    supplied more than once is one element; and a conversion of the validated
    dataset resolves each name once and links rows that differ in their
    identifier or name. *)
Theorem set_fields_collapse_duplicates (raw : RawDataset) (aiod : AIoDDataset) :
  AIoDDataset_init raw = inr aiod →
  (∀ x, x ∈ aiod_has_parts aiod ↔ ∃ v, v ∈ raw_has_parts raw ∧ py_str v = x)
  ∧ (∀ x, x ∈ aiod_is_part aiod ↔ ∃ v, v ∈ raw_is_part raw ∧ py_str v = x)
  ∧ (∀ x, x ∈ aiod_alternate_names aiod
          ↔ ∃ v, v ∈ raw_alternate_names raw ∧ py_str v = x)
  ∧ (∀ x, x ∈ aiod_keywords aiod ↔ ∃ v, v ∈ raw_keywords raw ∧ py_str v = x)
  ∧ ∀ s orm s',
      aiod_to_orm aiod s = (inr orm, s') →
      NoDup (rel_id <$> orm_has_parts orm)
      ∧ NoDup (rel_id <$> orm_is_part orm)
      ∧ row_key <$> orm_alternate_names orm = elements (aiod_alternate_names aiod)
      ∧ NoDup (row_key <$> orm_alternate_names orm)
      ∧ row_key <$> orm_keywords orm = elements (aiod_keywords aiod)
      ∧ NoDup (row_key <$> orm_keywords orm).
Proof.
  intros (_ & Hhp & Hip & Han & Hkw)%AIoDDataset_init_inr.
  split_and!; try (intros x; rewrite ?Hhp, ?Hip, ?Han, ?Hkw;
                   apply elem_of_set_of_str).
  intros s orm s' (_ & -> & _)%aiod_to_orm_inr.
  unfold converted.
  cbn [orm_has_parts orm_is_part orm_alternate_names orm_keywords].
  rewrite !resolve_all_keys.
  split_and!;
    first [apply select_rows_NoDup | apply NoDup_elements | reflexivity].
Qed.

Lemma set_fields_collapse_duplicates_witness :
  let raw :=
    mkRawDataset None (Some "description") (Some "dset") (Some "openml")
      (Some "1") (Some "url")
      None None None None None None None None None None None None
      [PyStr "1"; PyInt 1] [] [PyStr "alias"; PyStr "alias"]
      (RawCitationValues []) [] [PyStr "nlp"; PyStr "ml"; PyStr "nlp"] [] in
  let aiod :=
    mkAIoDDataset None "description" "dset" "openml" "1" "url"
      None None None None None None None None None None None
      None {[ "1" ]} ∅ {[ "alias" ]} (CitationIds ∅) [] {[ "nlp"; "ml" ]} [] in
  (∀ x, x ∈ aiod_has_parts aiod ↔ ∃ v, v ∈ raw_has_parts raw ∧ py_str v = x)
  ∧ (∀ x, x ∈ aiod_is_part aiod ↔ ∃ v, v ∈ raw_is_part raw ∧ py_str v = x)
  ∧ (∀ x, x ∈ aiod_alternate_names aiod
          ↔ ∃ v, v ∈ raw_alternate_names raw ∧ py_str v = x)
  ∧ (∀ x, x ∈ aiod_keywords aiod ↔ ∃ v, v ∈ raw_keywords raw ∧ py_str v = x)
  ∧ ∀ s orm s',
      aiod_to_orm aiod s = (inr orm, s') →
      NoDup (rel_id <$> orm_has_parts orm)
      ∧ NoDup (rel_id <$> orm_is_part orm)
      ∧ row_key <$> orm_alternate_names orm = elements (aiod_alternate_names aiod)
      ∧ NoDup (row_key <$> orm_alternate_names orm)
      ∧ row_key <$> orm_keywords orm = elements (aiod_keywords aiod)
      ∧ NoDup (row_key <$> orm_keywords orm).
Proof.
  apply set_fields_collapse_duplicates. vm_compute. reflexivity.
Defined.

(** ** The limits of the schemas *)

Lemma check_length_max_iff field hi v :
  check_length field None (Some hi) v = [] ↔ String.length v ≤ hi.
Proof. unfold check_length. case_bool_decide; split; (done || lia). Qed.

Lemma check_required_iff field hi v :
  check_required field hi v = [] ↔ given_within hi v.
Proof.
  unfold given_within, check_required. destruct v as [x|].
  - rewrite check_length_max_iff. split; [eauto|]. by intros (y & [= <-] & ?).
  - split; [done|]. by intros (y & [=] & _).
Qed.

Lemma check_optional_max_iff field hi v :
  check_optional field None (Some hi) v = [] ↔ within hi v.
Proof.
  unfold within, check_optional. destruct v as [x|].
  - rewrite check_length_max_iff. split; [by intros ? y [= <-] | eauto].
  - split; [by intros _ y [=] | done].
Qed.

Lemma check_issn_iff v :
  check_optional "issn" (Some 8) (Some 8) v = [] ↔
  ∀ x, v = Some x → String.length x = 8.
Proof.
  destruct v as [x|].
  - unfold check_optional, check_length. split.
    + intros Hnil y [= <-]. repeat case_bool_decide; try done. lia.
    + intros Hlen. specialize (Hlen x eq_refl).
      rewrite bool_decide_eq_false_2 by lia.
      by rewrite bool_decide_eq_false_2 by lia.
  - split; [by intros _ y [=] | done].
Qed.

Lemma check_required_too_long field hi x :
  hi < String.length x →
  check_required field hi (Some x) = [max_length_error field hi].
Proof.
  intros Hlong. unfold check_required, check_length.
  by rewrite bool_decide_eq_true_2.
Qed.

Lemma distribution_errors_nil_iff d :
  distribution_errors d = [] ↔ distribution_within d.
Proof.
  unfold distribution_errors, distribution_within. split.
  - intros H.
    apply app_nil in H as [H1 H]. apply app_nil in H as [H2 H].
    apply app_nil in H as [H3 H4].
    apply check_length_max_iff in H1.
    apply check_optional_max_iff in H2, H3, H4. done.
  - intros (H1 & H2 & H3 & H4).
    apply (check_length_max_iff "content_url") in H1.
    apply (check_optional_max_iff "description") in H2.
    apply (check_optional_max_iff "name") in H3.
    apply (check_optional_max_iff "encoding_format") in H4.
    by rewrite H1, H2, H3, H4.
Qed.

Lemma publication_errors_nil_iff title url :
  publication_errors title url = [] ↔ within 250 title ∧ within 250 url.
Proof.
  unfold publication_errors. by rewrite app_nil, !check_optional_max_iff.
Qed.

(** The objects of a list field leave no entry exactly when none of them has
    one. *)
Lemma list_errors_nil_iff {A} field (errors : A → list ErrorEntry) i l :
  list_errors field errors i l = [] ↔ Forall (λ a, errors a = []) l.
Proof.
  revert i. induction l as [|a l IH]; intros i.
  - split; [constructor | done].
  - cbn [list_errors]. rewrite app_nil, Forall_cons, IH.
    destruct (errors a); split; intros [? ?]; done.
Qed.

Lemma citations_errors_nil_iff c :
  citations_errors c = [] ↔ citations_within c.
Proof.
  destruct c as [values|records]; [done|].
  unfold citations_errors, citations_within.
  assert (Forall publication_within records ↔
          list_errors "citations"
            (λ p, publication_errors (publ_title p) (publ_url p)) 0 records = [])
    as ->.
  { rewrite list_errors_nil_iff. apply Forall_proper; [|done].
    intros p. by rewrite publication_errors_nil_iff. }
  destruct (list_errors _ _ _ records) as [|e es]; [done|].
  split; [|done]. by intros [_ ?]%app_nil.
Qed.

Lemma dataset_errors_nil_iff raw :
  dataset_errors raw = [] ↔
  given_within 5000 (raw_description raw)
  ∧ given_within 150 (raw_name raw)
  ∧ given_within 30 (raw_node raw)
  ∧ given_within 250 (raw_node_specific_identifier raw)
  ∧ given_within 150 (raw_same_as raw)
  ∧ within 150 (raw_creator raw)
  ∧ (∀ x, raw_issn raw = Some x → String.length x = 8)
  ∧ within 500 (raw_spatial_coverage raw)
  ∧ within 150 (raw_version raw)
  ∧ within 150 (raw_license raw)
  ∧ citations_within (raw_citations raw)
  ∧ Forall distribution_within (raw_distributions raw).
Proof.
  assert (Forall (λ a, distribution_errors a = []) (raw_distributions raw)
          ↔ Forall distribution_within (raw_distributions raw)) as Hds.
  { apply Forall_proper; [|done]. intros d. apply distribution_errors_nil_iff. }
  unfold dataset_errors. split.
  - intros H.
    apply app_nil in H as [H1 H]. apply app_nil in H as [H2 H].
    apply app_nil in H as [H3 H]. apply app_nil in H as [H4 H].
    apply app_nil in H as [H5 H]. apply app_nil in H as [H6 H].
    apply app_nil in H as [H7 H]. apply app_nil in H as [H8 H].
    apply app_nil in H as [H9 H]. apply app_nil in H as [H10 H].
    apply app_nil in H as [H11 H12].
    apply check_required_iff in H1, H2, H3, H4, H5.
    apply check_optional_max_iff in H6, H8, H9, H10.
    pose proof (proj1 (check_issn_iff _) H7) as H7'.
    apply citations_errors_nil_iff in H11.
    apply list_errors_nil_iff, Hds in H12. done.
  - intros (H1 & H2 & H3 & H4 & H5 & H6 & H7 & H8 & H9 & H10 & H11 & H12).
    apply (check_required_iff "description") in H1.
    apply (check_required_iff "name") in H2.
    apply (check_required_iff "node") in H3.
    apply (check_required_iff "node_specific_identifier") in H4.
    apply (check_required_iff "same_as") in H5.
    apply (check_optional_max_iff "creator") in H6.
    apply (check_optional_max_iff "spatial_coverage") in H8.
    apply (check_optional_max_iff "version") in H9.
    apply (check_optional_max_iff "license") in H10.
    pose proof (proj2 (check_issn_iff _) H7) as H7'.
    apply citations_errors_nil_iff in H11.
    apply Hds, (list_errors_nil_iff "distributions" _ 0) in H12.
    by rewrite H1, H2, H3, H4, H5, H6, H7', H8, H9, H10, H11, H12.
Qed.

(** What validation returns when there is nothing to report, and what it
    raises otherwise. *)
Lemma AIoDDataset_init_nil raw :
  dataset_errors raw = [] →
  AIoDDataset_init raw =
  inr (mkAIoDDataset
         (raw_id raw)
         (default "" (raw_description raw))
         (default "" (raw_name raw))
         (default "" (raw_node raw))
         (default "" (raw_node_specific_identifier raw))
         (default "" (raw_same_as raw))
         (raw_creator raw)
         (raw_date_modified raw)
         (raw_date_published raw)
         (raw_funder raw)
         (raw_is_accessible_for_free raw)
         (raw_issn raw)
         (raw_size raw)
         (raw_spatial_coverage raw)
         (raw_temporal_coverage_from raw)
         (raw_temporal_coverage_to raw)
         (raw_version raw)
         (raw_license raw)
         (set_of_str (raw_has_parts raw))
         (set_of_str (raw_is_part raw))
         (set_of_str (raw_alternate_names raw))
         (validate_citations (raw_citations raw))
         (raw_distributions raw)
         (set_of_str (raw_keywords raw))
         (raw_measured_values raw)).
Proof. intros Hnil. unfold AIoDDataset_init. by rewrite Hnil. Qed.

Lemma AIoDDataset_init_cons raw :
  dataset_errors raw ≠ [] →
  AIoDDataset_init raw = inl (ValidationError (dataset_errors raw)).
Proof. intros Hne. unfold AIoDDataset_init. by destruct (dataset_errors raw). Qed.

(** ** The round trip *)

Lemma comprehension_distributions (l : list AIoDDistribution) :
  Forall (λ d, distribution_errors d = []) l →
  comprehension
    (λ orm_distr,
       AIoDDistribution_init
         (dd_content_url orm_distr)
         (dd_content_size_kb orm_distr)
         (dd_description orm_distr)
         (dd_name orm_distr)
         (dd_encoding_format orm_distr))
    (download_of <$> l)
  = inr l.
Proof.
  induction 1 as [|d l Hd Hl IH]; [done|].
  rewrite fmap_cons. simpl comprehension. rewrite IH.
  unfold AIoDDistribution_init, download_of. simpl.
  destruct d as [url size descr name enc]. simpl in *. by rewrite Hd.
Qed.

Lemma license_rows_key aiod s :
  row_key <$> (license_rows aiod s).1 = aiod_license aiod.
Proof.
  unfold license_rows. destruct (aiod_license aiod) as [name|]; [|done].
  pose proof (as_unique_key name (licenses s)) as Hkey.
  destruct (as_unique name (licenses s)) as [r t]. simpl in *. by rewrite Hkey.
Qed.

Lemma set_of_str_related (rows : list Related) :
  set_of_str ((PyInt ∘ rel_id) <$> rows)
  = list_to_set (pretty <$> (rel_id <$> rows)).
Proof.
  unfold set_of_str. f_equal. rewrite <- !list_fmap_compose.
  by apply list_fmap_ext.
Qed.

(** The keys of the rows of a statement that resolves, written in decimal,
    are its identifiers when these are decimal texts. *)
Lemma set_of_str_selected s q :
  resolves s q → canonical_ids (sel_ids q) →
  set_of_str ((PyInt ∘ rel_id) <$> select_rows s q) = sel_ids q.
Proof.
  intros [Hpresent _] Hcan. rewrite set_of_str_related.
  apply set_eq. intros x. rewrite elem_of_list_to_set, list_elem_of_fmap.
  split.
  - intros (i & -> & (_ & y & Hy & Hread)%elem_of_select_ids).
    destruct (Hcan y Hy) as [j Hj].
    rewrite (reads_canonical s y j Hj) in Hread. injection Hread as ->.
    apply canonical_Some in Hj. by rewrite Hj.
  - intros Hx. destruct (Hcan x Hx) as [j Hj]. exists j.
    split; [symmetry; by apply canonical_Some|].
    apply elem_of_select_ids.
    destruct (Hpresent x Hx) as (i & Hi & Hread).
    rewrite (reads_canonical s x j Hj) in Hread. injection Hread as ->.
    split; [done|]. exists x. split; [done|]. by apply reads_canonical.
Qed.

Lemma canonical_ids_empty : canonical_ids ∅.
Proof. intros x Hx. by apply elem_of_empty in Hx. Qed.

Lemma set_of_str_rows (names : gset string) (t : list (Row string)) :
  set_of_str ((PyStr ∘ row_key) <$> (resolve_all (elements names) t).1) = names.
Proof.
  unfold set_of_str. rewrite <- list_fmap_compose.
  assert (∀ l : list (Row string),
            (py_str ∘ (PyStr ∘ row_key)) <$> l = row_key <$> l) as ->
    by (intros l; by apply list_fmap_ext).
  rewrite resolve_all_keys. apply list_to_set_elements_L.
Qed.

Lemma measured_values_back (mvs : list AIoDMeasurementValue) t :
  (λ mv, mkAIoDMeasurementValue (row_key mv).1 (row_key mv).2)
    <$> (resolve_all (measured_key <$> mvs) t).1
  = mvs.
Proof.
  rewrite (list_fmap_compose row_key
             (λ k, mkAIoDMeasurementValue k.1 k.2)).
  rewrite resolve_all_keys, <- list_fmap_compose.
  rewrite <- (list_fmap_id mvs) at 2. apply list_fmap_ext.
  by intros i [] _.
Qed.

Lemma citations_back aiod s :
  citations_resolve aiod s → canonical_ids (citation_ids aiod) →
  set_of_str ((PyInt ∘ rel_id) <$> citation_rows aiod s) = citation_ids aiod.
Proof.
  unfold citations_resolve, citation_rows, citation_ids.
  destruct (aiod_citations aiod) as [ids|records].
  - apply (set_of_str_selected s (mkSelect ClsOrmPublication ids)).
  - done.
Qed.

Lemma orm_to_aiod_unfold orm :
  orm_to_aiod orm =
  match
    comprehension
      (λ orm_distr,
         AIoDDistribution_init
           (dd_content_url orm_distr)
           (dd_content_size_kb orm_distr)
           (dd_description orm_distr)
           (dd_name orm_distr)
           (dd_encoding_format orm_distr))
      (orm_distributions orm)
  with
  | inl e => inl e
  | inr distributions => AIoDDataset_init (flattened orm distributions)
  end.
Proof. reflexivity. Qed.

(** Converting a canonical dataset and converting the result back gives the
    dataset again, with its citations as a set of identifiers, when the
    identifiers it refers to are decimal texts. *)
Lemma orm_to_aiod_converted aiod s :
  valid_dataset aiod → resolvable aiod s →
  canonical_ids (aiod_has_parts aiod) →
  canonical_ids (aiod_is_part aiod) →
  canonical_ids (citation_ids aiod) →
  orm_to_aiod (converted aiod s)
  = inr (with_citations (CitationIds (citation_ids aiod)) aiod).
Proof.
  intros [Herr Hdistr] (Hc & Hhp & Hip) Hchp Hcip Hcc.
  rewrite orm_to_aiod_unfold.
  change (orm_distributions (converted aiod s))
    with (download_of <$> aiod_distributions aiod).
  rewrite comprehension_distributions by done.
  rewrite AIoDDataset_init_nil.
  - unfold flattened, converted, with_citations.
    cbn [raw_id raw_description raw_name raw_node raw_node_specific_identifier
         raw_same_as raw_creator raw_date_modified raw_date_published
         raw_funder raw_is_accessible_for_free raw_issn raw_size
         raw_spatial_coverage raw_temporal_coverage_from
         raw_temporal_coverage_to raw_version raw_license raw_has_parts
         raw_is_part raw_alternate_names raw_citations raw_distributions
         raw_keywords raw_measured_values
         orm_id orm_description orm_name orm_node orm_node_specific_identifier
         orm_same_as orm_creator orm_date_modified orm_date_published
         orm_funder orm_is_accessible_for_free orm_issn orm_size
         orm_spatial_coverage orm_temporal_coverage_from
         orm_temporal_coverage_to orm_version orm_license orm_has_parts
         orm_is_part orm_alternate_names orm_citations orm_distributions
         orm_keywords orm_measured_values default validate_citations].
    rewrite license_rows_key.
    rewrite (set_of_str_selected s (mkSelect ClsOrmDataset (aiod_has_parts aiod)))
      by done.
    rewrite (set_of_str_selected s (mkSelect ClsOrmDataset (aiod_is_part aiod)))
      by done.
    rewrite !set_of_str_rows, measured_values_back, citations_back by done.
    reflexivity.
  - pose proof (proj1 (dataset_errors_nil_iff _) Herr)
      as (Hd & Hn & Hno & Hi & Hsa & Hcr & Hissn & Hsp & Hv & Hl & _ & Hds).
    apply dataset_errors_nil_iff.
    split_and!; [exact Hd | exact Hn | exact Hno | exact Hi | exact Hsa
                | exact Hcr | exact Hissn | exact Hsp | exact Hv | | exact I
                | exact Hds].
    unfold flattened, converted. cbn [raw_license orm_license].
    rewrite license_rows_key. exact Hl.
Qed.

(** C2. For a canonical dataset without parts whose citation identifiers are
    decimal texts and whose conversion succeeds, converting the result back
    succeeds and reproduces every scalar field, the license, the
    distributions, the measured values and every set of identifiers or
    names; citations that were given as identifiers come back as the same
    set. *)
Theorem round_trip (aiod : AIoDDataset) (s s' : Session) (orm : OrmDataset) :
  valid_dataset aiod →
  aiod_has_parts aiod = ∅ →
  aiod_is_part aiod = ∅ →
  canonical_ids (citation_ids aiod) →
  aiod_to_orm aiod s = (inr orm, s') →
  ∃ back,
    orm_to_aiod orm = inr back
    ∧ aiod_id back = aiod_id aiod
    ∧ aiod_description back = aiod_description aiod
    ∧ aiod_name back = aiod_name aiod
    ∧ aiod_node back = aiod_node aiod
    ∧ aiod_node_specific_identifier back = aiod_node_specific_identifier aiod
    ∧ aiod_same_as back = aiod_same_as aiod
    ∧ aiod_creator back = aiod_creator aiod
    ∧ aiod_date_modified back = aiod_date_modified aiod
    ∧ aiod_date_published back = aiod_date_published aiod
    ∧ aiod_funder back = aiod_funder aiod
    ∧ aiod_is_accessible_for_free back = aiod_is_accessible_for_free aiod
    ∧ aiod_issn back = aiod_issn aiod
    ∧ aiod_size back = aiod_size aiod
    ∧ aiod_spatial_coverage back = aiod_spatial_coverage aiod
    ∧ aiod_temporal_coverage_from back = aiod_temporal_coverage_from aiod
    ∧ aiod_temporal_coverage_to back = aiod_temporal_coverage_to aiod
    ∧ aiod_version back = aiod_version aiod
    ∧ aiod_license back = aiod_license aiod
    ∧ aiod_has_parts back = aiod_has_parts aiod
    ∧ aiod_is_part back = aiod_is_part aiod
    ∧ aiod_alternate_names back = aiod_alternate_names aiod
    ∧ aiod_keywords back = aiod_keywords aiod
    ∧ aiod_distributions back = aiod_distributions aiod
    ∧ aiod_measured_values back = aiod_measured_values aiod
    ∧ (∀ ids, aiod_citations aiod = CitationIds ids →
              aiod_citations back = CitationIds ids ∧ back = aiod).
Proof.
  intros Hvalid Hhp Hip Hcan (Hres & -> & _)%aiod_to_orm_inr.
  exists (with_citations (CitationIds (citation_ids aiod)) aiod).
  split.
  - apply orm_to_aiod_converted; [done..| | |done].
    + rewrite Hhp. apply canonical_ids_empty.
    + rewrite Hip. apply canonical_ids_empty.
  - split_and!; try reflexivity.
    intros ids Hids. unfold citation_ids. rewrite Hids.
    split; [done|]. destruct aiod. simpl in Hids. by rewrite Hids.
Qed.

Lemma round_trip_witness :
  ∃ back,
    orm_to_aiod (converted citing_dataset one_publication_session) = inr back
    ∧ aiod_id back = aiod_id citing_dataset
    ∧ aiod_description back = aiod_description citing_dataset
    ∧ aiod_name back = aiod_name citing_dataset
    ∧ aiod_node back = aiod_node citing_dataset
    ∧ aiod_node_specific_identifier back
      = aiod_node_specific_identifier citing_dataset
    ∧ aiod_same_as back = aiod_same_as citing_dataset
    ∧ aiod_creator back = aiod_creator citing_dataset
    ∧ aiod_date_modified back = aiod_date_modified citing_dataset
    ∧ aiod_date_published back = aiod_date_published citing_dataset
    ∧ aiod_funder back = aiod_funder citing_dataset
    ∧ aiod_is_accessible_for_free back = aiod_is_accessible_for_free citing_dataset
    ∧ aiod_issn back = aiod_issn citing_dataset
    ∧ aiod_size back = aiod_size citing_dataset
    ∧ aiod_spatial_coverage back = aiod_spatial_coverage citing_dataset
    ∧ aiod_temporal_coverage_from back = aiod_temporal_coverage_from citing_dataset
    ∧ aiod_temporal_coverage_to back = aiod_temporal_coverage_to citing_dataset
    ∧ aiod_version back = aiod_version citing_dataset
    ∧ aiod_license back = aiod_license citing_dataset
    ∧ aiod_has_parts back = aiod_has_parts citing_dataset
    ∧ aiod_is_part back = aiod_is_part citing_dataset
    ∧ aiod_alternate_names back = aiod_alternate_names citing_dataset
    ∧ aiod_keywords back = aiod_keywords citing_dataset
    ∧ aiod_distributions back = aiod_distributions citing_dataset
    ∧ aiod_measured_values back = aiod_measured_values citing_dataset
    ∧ (∀ ids, aiod_citations citing_dataset = CitationIds ids →
              aiod_citations back = CitationIds ids ∧ back = citing_dataset).
Proof.
  apply (round_trip citing_dataset one_publication_session
           (session_after citing_dataset one_publication_session)).
  - split; [vm_compute; reflexivity | repeat constructor].
  - reflexivity.
  - reflexivity.
  - apply (bool_decide_unpack _). vm_compute. reflexivity.
  - vm_compute. reflexivity.
Defined.

(** C2 as the claim has it, without the condition on the identifiers, does
    not hold: with publication 1 in the store, the citation ["01"] is read as
    the key 1, the conversion succeeds, and the way back gives the citation
    ["1"]. *)
Lemma round_trip_counterexample :
  valid_dataset citing_dataset_01
  ∧ aiod_has_parts citing_dataset_01 = ∅
  ∧ aiod_is_part citing_dataset_01 = ∅
  ∧ aiod_citations citing_dataset_01 = CitationIds {[ "01" ]}
  ∧ ∃ orm s' back,
      aiod_to_orm citing_dataset_01 one_publication_session = (inr orm, s')
      ∧ orm_to_aiod orm = inr back
      ∧ aiod_citations back = CitationIds {[ "1" ]}
      ∧ aiod_citations back ≠ aiod_citations citing_dataset_01.
Proof.
  split_and!.
  - split; [vm_compute; reflexivity | constructor].
  - reflexivity.
  - reflexivity.
  - reflexivity.
  - eexists _, _, _.
    split; [vm_compute; reflexivity|].
    split; [vm_compute; reflexivity|].
    split; [vm_compute; reflexivity|].
    intros [=].
Qed.

(** ** Validation *)

(** C7. Validation lets a dataset through only within the limits: name 150,
    description 5000, node 30, node-specific identifier 250, same_as 150
    characters, and an issn of exactly 8.  When it rejects, the exception
    carries the errors of all fields in one list, so that the entry of each
    limit that is broken is in it.  The name of 200 characters of
    [test_too_long_name] is rejected with the one entry at path ["name"]
    that refers to the limit of 150. *)
Theorem validation_enforces_limits (raw : RawDataset) :
  (∀ aiod, AIoDDataset_init raw = inr aiod →
     String.length (aiod_name aiod) ≤ 150
     ∧ String.length (aiod_description aiod) ≤ 5000
     ∧ String.length (aiod_node aiod) ≤ 30
     ∧ String.length (aiod_node_specific_identifier aiod) ≤ 250
     ∧ String.length (aiod_same_as aiod) ≤ 150
     ∧ ∀ issn, aiod_issn aiod = Some issn → String.length issn = 8)
  ∧ (dataset_errors raw ≠ [] →
     AIoDDataset_init raw = inl (ValidationError (dataset_errors raw)))
  ∧ (∀ v, raw_name raw = Some v → 150 < String.length v →
          max_length_error "name" 150 ∈ dataset_errors raw)
  ∧ (∀ v, raw_description raw = Some v → 5000 < String.length v →
          max_length_error "description" 5000 ∈ dataset_errors raw)
  ∧ (∀ v, raw_node raw = Some v → 30 < String.length v →
          max_length_error "node" 30 ∈ dataset_errors raw)
  ∧ (∀ v, raw_node_specific_identifier raw = Some v → 250 < String.length v →
          max_length_error "node_specific_identifier" 250 ∈ dataset_errors raw)
  ∧ (∀ v, raw_same_as raw = Some v → 150 < String.length v →
          max_length_error "same_as" 150 ∈ dataset_errors raw)
  ∧ (∀ v, raw_issn raw = Some v → String.length v < 8 →
          min_length_error "issn" 8 ∈ dataset_errors raw)
  ∧ (∀ v, raw_issn raw = Some v → 8 < String.length v →
          max_length_error "issn" 8 ∈ dataset_errors raw)
  ∧ AIoDDataset_init too_long_name_body
    = inl (ValidationError
             [mkErrorEntry [PyStr "name"]
                "ensure this value has at most 150 characters"
                "value_error.any_str.max_length" (Some 150)]).
Proof.
  split_and!.
  - intros aiod Hinit.
    destruct (decide (dataset_errors raw = [])) as [Herr|Herr].
    + rewrite (AIoDDataset_init_nil raw Herr) in Hinit. injection Hinit as <-.
      apply dataset_errors_nil_iff in Herr
        as ((d & Hd & ?) & (n & Hn & ?) & (no & Hno & ?) & (i & Hi & ?)
            & (sa & Hsa & ?) & _ & Hissn & _).
      cbn [aiod_name aiod_description aiod_node aiod_node_specific_identifier
           aiod_same_as aiod_issn].
      rewrite Hd, Hn, Hno, Hi, Hsa. by split_and!.
    + by rewrite (AIoDDataset_init_cons raw Herr) in Hinit.
  - apply AIoDDataset_init_cons.
  - intros v Hv Hlong. unfold dataset_errors.
    do 1 (apply elem_of_app; right). apply elem_of_app; left.
    rewrite Hv, check_required_too_long by done. apply list_elem_of_here.
  - intros v Hv Hlong. unfold dataset_errors.
    apply elem_of_app; left.
    rewrite Hv, check_required_too_long by done. apply list_elem_of_here.
  - intros v Hv Hlong. unfold dataset_errors.
    do 2 (apply elem_of_app; right). apply elem_of_app; left.
    rewrite Hv, check_required_too_long by done. apply list_elem_of_here.
  - intros v Hv Hlong. unfold dataset_errors.
    do 3 (apply elem_of_app; right). apply elem_of_app; left.
    rewrite Hv, check_required_too_long by done. apply list_elem_of_here.
  - intros v Hv Hlong. unfold dataset_errors.
    do 4 (apply elem_of_app; right). apply elem_of_app; left.
    rewrite Hv, check_required_too_long by done. apply list_elem_of_here.
  - intros v Hv Hshort. unfold dataset_errors.
    do 6 (apply elem_of_app; right). apply elem_of_app; left.
    rewrite Hv. unfold check_optional, check_length.
    rewrite bool_decide_eq_true_2 by done. apply list_elem_of_here.
  - intros v Hv Hlong. unfold dataset_errors.
    do 6 (apply elem_of_app; right). apply elem_of_app; left.
    rewrite Hv. unfold check_optional, check_length.
    rewrite bool_decide_eq_false_2 by lia.
    rewrite bool_decide_eq_true_2 by done. apply list_elem_of_here.
  - by vm_compute.
Qed.

(** Three limits broken by one body: three entries, in the order of the
    fields. *)
Example three_violations_reported :
  AIoDDataset_init three_violations_body
  = inl (ValidationError
           [max_length_error "name" 150;
            max_length_error "node" 30;
            min_length_error "issn" 8]).
Proof. by vm_compute. Qed.

(** ** Registration *)

Lemma existing_dataset_Some aiod s j :
  existing_dataset aiod s = Some j →
  ∃ row, datasets s !! j = Some row
         ∧ orm_name row = aiod_name aiod ∧ orm_node row = aiod_node aiod.
Proof.
  unfold existing_dataset. intros Hex.
  apply fmap_Some in Hex as ([j' row] & Hhd & ->).
  apply head_Some_elem_of, list_elem_of_filter in Hhd as [[Hn Hno] Hin].
  apply elem_of_map_to_list in Hin. eauto.
Qed.

Lemma existing_dataset_found aiod s i row :
  datasets s !! i = Some row →
  orm_name row = aiod_name aiod → orm_node row = aiod_node aiod →
  is_Some (existing_dataset aiod s).
Proof.
  intros Hrow Hn Hno. unfold existing_dataset.
  apply fmap_is_Some, head_is_Some.
  intros Hnil. eapply (filter_nil_not_elem_of _ _ (i, row)); [done| |].
  - by split.
  - by apply elem_of_map_to_list.
Qed.

(** C8. Registering a dataset whose (name, node) pair some row of the store
    has already fails with status 409; the detail ends in the identifier of a
    row with that pair, which is the given row when the pairs of the store
    are unique; and the session is handed back as it was, with no new row. *)
Theorem register_duplicate_conflict
    (aiod : AIoDDataset) (s : Session) (i : Z) (row : OrmDataset) :
  datasets s !! i = Some row →
  orm_name row = aiod_name aiod →
  orm_node row = aiod_node aiod →
  ∃ j existing,
    datasets s !! j = Some existing
    ∧ orm_name existing = aiod_name aiod
    ∧ orm_node existing = aiod_node aiod
    ∧ (unique_natural_keys s → j = i)
    ∧ register_dataset aiod s = (inl (HTTPException 409 (conflict_detail j)), s)
    ∧ datasets (register_dataset aiod s).2 = datasets s.
Proof.
  intros Hrow Hn Hno.
  destruct (existing_dataset_found aiod s i row Hrow Hn Hno) as [j Hj].
  destruct (existing_dataset_Some aiod s j Hj) as (existing & Hex & Hen & Heno).
  exists j, existing. unfold register_dataset. rewrite Hj.
  split_and!; try done.
  intros Huniq. apply (Huniq j i existing row); congruence.
Qed.

Lemma register_duplicate_conflict_witness :
  ∃ j existing,
    datasets one_dataset_session !! j = Some existing
    ∧ orm_name existing = "dset1"
    ∧ orm_node existing = "openml"
    ∧ (unique_natural_keys one_dataset_session → j = 1%Z)
    ∧ register_dataset (example_dataset "dset1" ∅ (CitationIds ∅))
        one_dataset_session
      = (inl (HTTPException 409 (conflict_detail j)), one_dataset_session)
    ∧ datasets (register_dataset (example_dataset "dset1" ∅ (CitationIds ∅))
                  one_dataset_session).2
      = datasets one_dataset_session.
Proof.
  apply (register_duplicate_conflict (example_dataset "dset1" ∅ (CitationIds ∅))
           one_dataset_session 1 (dataset_row 1 "dset1" "openml")).
  - reflexivity.
  - reflexivity.
  - reflexivity.
Defined.

(** The detail [test_duplicated_dataset] expects. *)
Example register_duplicate_detail :
  (register_dataset (example_dataset "dset1" ∅ (CitationIds ∅))
     one_dataset_session).1
  = inl (HTTPException 409
           "There already exists a dataset with the same platform and name, with id=1.").
Proof. by vm_compute. Qed.

(** A new pair is given the next identifier and persisted. *)
Example register_new_dataset :
  (register_dataset (example_dataset "dset2" ∅ (CitationIds ∅))
     one_dataset_session).1 = inr 2%Z
  ∧ elements (dom (datasets
       (register_dataset (example_dataset "dset2" ∅ (CitationIds ∅))
          one_dataset_session).2)) ≡ₚ [1%Z; 2%Z].
Proof.
  split; [by vm_compute|].
  vm_compute. apply perm_swap || reflexivity.
Qed.

(** * Further properties of the converter and the schemas *)

(** ** [_retrieve_related_objects_by_ids]: what it returns and what it
    leaves *)

Lemma retrieve_session ids cls s :
  (_retrieve_related_objects_by_ids ids cls s).2
  = record_statements (statements_of cls ids) s.
Proof.
  unfold statements_of. case_decide as Hids.
  - subst ids. by rewrite retrieve_empty, record_no_statements.
  - rewrite retrieve_nonempty by done. simpl.
    case_bool_decide; [|done]. by destruct (str_join _ _).
Qed.

Lemma select_rows_stored s q r :
  r ∈ select_rows s q →
  rel_cls r = sel_cls q ∧ rel_id r ∈ table_ids s (sel_cls q).
Proof. intros (? & ? & _)%elem_of_select_rows. done. Qed.

Lemma select_rows_rows_of s q :
  resolves s q → rows_of s (sel_ids q) (select_rows s q).
Proof.
  intros [Hpresent _]. split.
  - intros x Hx. destruct (Hpresent x Hx) as (i & Hi & Hread).
    exists (mkRelated (sel_cls q) i). split; [|done].
    apply elem_of_select_rows. split_and!; [done..|]. eauto.
  - intros r (_ & _ & Hx)%elem_of_select_rows. done.
Qed.

Lemma retrieve_inr ids cls s rows :
  (_retrieve_related_objects_by_ids ids cls s).1 = inr rows →
  resolves s (mkSelect cls ids) ∧ rows = select_rows s (mkSelect cls ids).
Proof.
  intros Hres.
  destruct (decide (resolves s (mkSelect cls ids))) as [Hm|Hm].
  - rewrite (retrieve_resolved ids cls s Hm) in Hres. simpl in Hres.
    by injection Hres as <-.
  - destruct (retrieve_failure ids cls s Hm) as (l & _ & Hl).
    by rewrite Hl in Hres.
Qed.

(** X1. The rows a successful resolution returns are one row per identifier
    asked for: as many rows as identifiers, with pairwise different keys, all
    of the class asked for and all in its table; every identifier is read as
    the key of one of the rows, and the key of every row is what one of the
    identifiers is read as.  When the identifiers are decimal texts, the keys
    of the rows in decimal are the identifiers. *)
Theorem retrieve_returns_requested_rows
    (ids : gset string) (cls : OrmClass) (s : Session) (rows : list Related) :
  (_retrieve_related_objects_by_ids ids cls s).1 = inr rows →
  length rows = size ids
  ∧ NoDup (rel_id <$> rows)
  ∧ (∀ r, r ∈ rows → rel_cls r = cls ∧ rel_id r ∈ table_ids s cls)
  ∧ (∀ x, x ∈ ids → ∃ r, r ∈ rows ∧ reads s x = Some (rel_id r))
  ∧ (∀ r, r ∈ rows → ∃ x, x ∈ ids ∧ reads s x = Some (rel_id r))
  ∧ (canonical_ids ids → list_to_set (pretty <$> (rel_id <$> rows)) = ids).
Proof.
  intros [Hres ->]%retrieve_inr.
  destruct (select_rows_rows_of s (mkSelect cls ids) Hres) as [Hall Hrows].
  split_and!.
  - by apply (select_rows_complete s (mkSelect cls ids)).
  - apply select_rows_NoDup.
  - intros r Hr. by apply (select_rows_stored s (mkSelect cls ids)).
  - exact Hall.
  - exact Hrows.
  - intros Hcan. rewrite <- set_of_str_related.
    by apply (set_of_str_selected s (mkSelect cls ids)).
Qed.

Lemma retrieve_returns_requested_rows_witness :
  length [mkRelated ClsOrmDataset 1] = size ({[ "01" ]} : gset string)
  ∧ NoDup (rel_id <$> [mkRelated ClsOrmDataset 1])
  ∧ (∀ r, r ∈ [mkRelated ClsOrmDataset 1] →
          rel_cls r = ClsOrmDataset
          ∧ rel_id r ∈ table_ids one_dataset_session ClsOrmDataset)
  ∧ (∀ x, x ∈ ({[ "01" ]} : gset string) →
          ∃ r, r ∈ [mkRelated ClsOrmDataset 1]
               ∧ reads one_dataset_session x = Some (rel_id r))
  ∧ (∀ r, r ∈ [mkRelated ClsOrmDataset 1] →
          ∃ x, x ∈ ({[ "01" ]} : gset string)
               ∧ reads one_dataset_session x = Some (rel_id r))
  ∧ (canonical_ids {[ "01" ]} →
     list_to_set (pretty <$> (rel_id <$> [mkRelated ClsOrmDataset 1]))
     = ({[ "01" ]} : gset string)).
Proof.
  apply (retrieve_returns_requested_rows {[ "01" ]} ClsOrmDataset
           one_dataset_session).
  vm_compute. reflexivity.
Defined.

(** X2. The resolution is all or nothing: it returns rows exactly when every
    identifier asked for is present in the table of the class and no two of
    them are read as the same key, and raises otherwise. *)
Theorem retrieve_succeeds_iff_resolves
    (ids : gset string) (cls : OrmClass) (s : Session) :
  (∃ rows, (_retrieve_related_objects_by_ids ids cls s).1 = inr rows)
  ↔ (∀ x, x ∈ ids → present s cls x)
    ∧ (∀ x, x ∈ ids → ∀ y, y ∈ ids → reads s x = reads s y → x = y).
Proof.
  split.
  - intros [rows [Hres _]%retrieve_inr]. exact Hres.
  - intros Hres.
    rewrite (retrieve_resolved ids cls s Hres). eauto.
Qed.

(** X3. The resolution only reads: whether it returns or raises, every table
    of the session is as it was, and it has executed one statement for a
    non-empty set of identifiers and none for the empty set. *)
Theorem retrieve_is_read_only
    (ids : gset string) (cls : OrmClass) (s : Session) :
  let s' := (_retrieve_related_objects_by_ids ids cls s).2 in
  datasets s' = datasets s
  ∧ publications s' = publications s
  ∧ licenses s' = licenses s
  ∧ alternate_names s' = alternate_names s
  ∧ keywords s' = keywords s
  ∧ measured_values s' = measured_values s
  ∧ executed s' = executed s ++ (if decide (ids = ∅) then [] else [mkSelect cls ids]).
Proof. simpl. rewrite retrieve_session. by split_and!. Qed.

(** ** [aiod_to_orm]: where it fails and what it touches *)

Lemma aiod_to_orm_fails_at_citations aiod s ids :
  aiod_citations aiod = CitationIds ids →
  ¬ resolves s (mkSelect ClsOrmPublication ids) →
  ∃ l, l ≡ₚ elements ids ∧
       aiod_to_orm aiod s =
       (inl (HTTPException 404 (not_found_detail l)),
        record_statement (mkSelect ClsOrmPublication ids) s).
Proof.
  intros Hcit Hmiss. unfold aiod_to_orm. rewrite Hcit.
  destruct (retrieve_failure ids ClsOrmPublication s Hmiss) as (l & Hperm & Hl).
  exists l. split; [done|]. by rewrite bind_unfold, Hl.
Qed.

Lemma aiod_to_orm_fails_at_has_parts aiod s :
  citations_resolve aiod s →
  ¬ resolves s (mkSelect ClsOrmDataset (aiod_has_parts aiod)) →
  ∃ l, l ≡ₚ elements (aiod_has_parts aiod) ∧
       aiod_to_orm aiod s =
       (inl (HTTPException 404 (not_found_detail l)),
        record_statement (mkSelect ClsOrmDataset (aiod_has_parts aiod))
          (record_statements (citation_statements aiod) s)).
Proof.
  intros Hc Hmiss. unfold aiod_to_orm.
  rewrite bind_unfold, citations_step_resolved by done.
  destruct (retrieve_failure (aiod_has_parts aiod) ClsOrmDataset
              (record_statements (citation_statements aiod) s) Hmiss)
    as (l & Hperm & Hl).
  exists l. split; [done|]. by rewrite bind_unfold, Hl.
Qed.

Lemma aiod_to_orm_fails_at_is_part aiod s :
  citations_resolve aiod s →
  resolves s (mkSelect ClsOrmDataset (aiod_has_parts aiod)) →
  ¬ resolves s (mkSelect ClsOrmDataset (aiod_is_part aiod)) →
  ∃ l, l ≡ₚ elements (aiod_is_part aiod) ∧
       aiod_to_orm aiod s =
       (inl (HTTPException 404 (not_found_detail l)),
        record_statement (mkSelect ClsOrmDataset (aiod_is_part aiod))
          (record_statements (statements_of ClsOrmDataset (aiod_has_parts aiod))
             (record_statements (citation_statements aiod) s))).
Proof.
  intros Hc Hhp Hmiss. unfold aiod_to_orm.
  rewrite bind_unfold, citations_step_resolved by done.
  rewrite bind_unfold,
    (retrieve_resolved _ _ (record_statements (citation_statements aiod) s))
    by done.
  destruct (retrieve_failure (aiod_is_part aiod) ClsOrmDataset
              (record_statements (statements_of ClsOrmDataset (aiod_has_parts aiod))
                 (record_statements (citation_statements aiod) s)) Hmiss)
    as (l & Hperm & Hl).
  exists l. split; [done|]. by rewrite bind_unfold, Hl.
Qed.

Lemma citations_resolve_iff aiod s :
  citations_resolve aiod s ↔
  ∀ ids, aiod_citations aiod = CitationIds ids →
         resolves s (mkSelect ClsOrmPublication ids).
Proof.
  unfold citations_resolve. destruct (aiod_citations aiod) as [ids|records].
  - split; [by intros H ids' [= <-] | eauto].
  - split; [by intros _ ids' [=] | done].
Qed.

(** X4. A conversion returns a record exactly when each relation of the
    dataset resolves: the citations among the publications when they are
    given as identifiers, and the parts and wholes among the datasets, every
    identifier being present and no two identifiers of one field being read
    as the same key.  Embedded citation records ask for nothing. *)
Theorem aiod_to_orm_succeeds_iff_resolves (aiod : AIoDDataset) (s : Session) :
  (∃ orm, (aiod_to_orm aiod s).1 = inr orm)
  ↔ (∀ ids, aiod_citations aiod = CitationIds ids →
            (∀ x, x ∈ ids → present s ClsOrmPublication x)
            ∧ (∀ x, x ∈ ids → ∀ y, y ∈ ids → reads s x = reads s y → x = y))
    ∧ ((∀ x, x ∈ aiod_has_parts aiod → present s ClsOrmDataset x)
       ∧ (∀ x, x ∈ aiod_has_parts aiod → ∀ y, y ∈ aiod_has_parts aiod →
               reads s x = reads s y → x = y))
    ∧ ((∀ x, x ∈ aiod_is_part aiod → present s ClsOrmDataset x)
       ∧ (∀ x, x ∈ aiod_is_part aiod → ∀ y, y ∈ aiod_is_part aiod →
               reads s x = reads s y → x = y)).
Proof.
  change ((∃ orm, (aiod_to_orm aiod s).1 = inr orm) ↔
          (∀ ids, aiod_citations aiod = CitationIds ids →
                  resolves s (mkSelect ClsOrmPublication ids))
          ∧ resolves s (mkSelect ClsOrmDataset (aiod_has_parts aiod))
          ∧ resolves s (mkSelect ClsOrmDataset (aiod_is_part aiod))).
  rewrite <- citations_resolve_iff. split.
  - intros [orm Horm]. destruct (aiod_to_orm aiod s) as [res s'] eqn:Hconv.
    simpl in Horm. subst res. by apply aiod_to_orm_inr in Hconv as (? & _).
  - intros Hres. rewrite aiod_to_orm_resolvable by done. eauto.
Qed.

(** X5. A conversion that raises has created nothing: the exception is the
    404 of a resolution, and the datasets, the publications and the four
    lookup tables are as they were, since all resolutions run before the
    first lookup row is asked for. *)
Theorem aiod_to_orm_failure_changes_no_table
    (aiod : AIoDDataset) (s : Session) (e : Exception) :
  (aiod_to_orm aiod s).1 = inl e →
  let s' := (aiod_to_orm aiod s).2 in
  (∃ l, e = HTTPException 404 (not_found_detail l))
  ∧ datasets s' = datasets s
  ∧ publications s' = publications s
  ∧ licenses s' = licenses s
  ∧ alternate_names s' = alternate_names s
  ∧ keywords s' = keywords s
  ∧ measured_values s' = measured_values s.
Proof.
  intros He. simpl.
  destruct (decide (resolvable aiod s)) as [Hr|Hr].
  - by rewrite aiod_to_orm_resolvable in He.
  - destruct (aiod_to_orm_unresolvable aiod s Hr) as (l & s' & Hl & Htables).
    rewrite Hl in He |- *. simpl in *. split; [|done].
    exists l. congruence.
Qed.

Lemma aiod_to_orm_failure_changes_no_table_witness :
  let aiod :=
    mkAIoDDataset None "description" "dset" "openml" "1" "url"
      None None None None None None None None None None None
      (Some "mit") {[ "5" ]} ∅ {[ "alias" ]} (CitationIds ∅) [] {[ "nlp" ]} [] in
  let e := HTTPException 404 "Dataset parts '5' not found in the database." in
  let s' := (aiod_to_orm aiod one_dataset_session).2 in
  (∃ l, e = HTTPException 404 (not_found_detail l))
  ∧ datasets s' = datasets one_dataset_session
  ∧ publications s' = publications one_dataset_session
  ∧ licenses s' = licenses one_dataset_session
  ∧ alternate_names s' = alternate_names one_dataset_session
  ∧ keywords s' = keywords one_dataset_session
  ∧ measured_values s' = measured_values one_dataset_session.
Proof.
  apply aiod_to_orm_failure_changes_no_table. vm_compute. reflexivity.
Defined.

(** X6. The resolutions run in the order citations, has_parts, is_part, and
    the first that does not resolve decides the exception: its detail
    enumerates the identifiers of that one field, and the fields after it are
    not looked at. *)
Theorem aiod_to_orm_reports_first_failing_relation
    (aiod : AIoDDataset) (s : Session) :
  (∀ ids, aiod_citations aiod = CitationIds ids →
          ¬ resolves s (mkSelect ClsOrmPublication ids) →
          ∃ l, l ≡ₚ elements ids
               ∧ (aiod_to_orm aiod s).1 = inl (HTTPException 404 (not_found_detail l))
               ∧ executed (aiod_to_orm aiod s).2
                 = executed s ++ [mkSelect ClsOrmPublication ids])
  ∧ (citations_resolve aiod s →
     ¬ resolves s (mkSelect ClsOrmDataset (aiod_has_parts aiod)) →
     ∃ l, l ≡ₚ elements (aiod_has_parts aiod)
          ∧ (aiod_to_orm aiod s).1 = inl (HTTPException 404 (not_found_detail l))
          ∧ executed (aiod_to_orm aiod s).2
            = (executed s ++ citation_statements aiod)
              ++ [mkSelect ClsOrmDataset (aiod_has_parts aiod)])
  ∧ (citations_resolve aiod s →
     resolves s (mkSelect ClsOrmDataset (aiod_has_parts aiod)) →
     ¬ resolves s (mkSelect ClsOrmDataset (aiod_is_part aiod)) →
     ∃ l, l ≡ₚ elements (aiod_is_part aiod)
          ∧ (aiod_to_orm aiod s).1 = inl (HTTPException 404 (not_found_detail l))
          ∧ executed (aiod_to_orm aiod s).2
            = ((executed s ++ citation_statements aiod)
               ++ statements_of ClsOrmDataset (aiod_has_parts aiod))
              ++ [mkSelect ClsOrmDataset (aiod_is_part aiod)]).
Proof.
  split_and!.
  - intros ids Hcit Hmiss.
    destruct (aiod_to_orm_fails_at_citations aiod s ids Hcit Hmiss)
      as (l & Hperm & ->). by exists l.
  - intros Hc Hmiss.
    destruct (aiod_to_orm_fails_at_has_parts aiod s Hc Hmiss)
      as (l & Hperm & ->). by exists l.
  - intros Hc Hhp Hmiss.
    destruct (aiod_to_orm_fails_at_is_part aiod s Hc Hhp Hmiss)
      as (l & Hperm & ->). by exists l.
Qed.

Lemma aiod_to_orm_reports_first_failing_relation_witness :
  ∃ l, l ≡ₚ elements ({[ "9" ]} : gset string)
       ∧ (aiod_to_orm dangling_dataset one_dataset_session).1
         = inl (HTTPException 404 (not_found_detail l))
       ∧ executed (aiod_to_orm dangling_dataset one_dataset_session).2
         = executed one_dataset_session ++ [mkSelect ClsOrmPublication {[ "9" ]}].
Proof.
  apply (proj1 (aiod_to_orm_reports_first_failing_relation
                  dangling_dataset one_dataset_session)).
  - reflexivity.
  - intros Hres%(bool_decide_pack _). vm_compute in Hres. exact Hres.
Defined.

(** X7. A conversion that returns has executed one statement for each
    non-empty set of identifiers, in the order citations, has_parts,
    is_part, and nothing else: no statement for an empty set, and none for
    citations given as embedded records. *)
Theorem aiod_to_orm_statements
    (aiod : AIoDDataset) (s s' : Session) (orm : OrmDataset) :
  aiod_to_orm aiod s = (inr orm, s') →
  executed s' =
  executed s
  ++ match aiod_citations aiod with
     | CitationIds ids =>
         if decide (ids = ∅) then [] else [mkSelect ClsOrmPublication ids]
     | CitationRecords _ => []
     end
  ++ (if decide (aiod_has_parts aiod = ∅) then []
      else [mkSelect ClsOrmDataset (aiod_has_parts aiod)])
  ++ (if decide (aiod_is_part aiod = ∅) then []
      else [mkSelect ClsOrmDataset (aiod_is_part aiod)]).
Proof.
  intros (_ & _ & ->)%aiod_to_orm_inr. unfold session_after. simpl.
  by rewrite <- !app_assoc.
Qed.

Lemma aiod_to_orm_statements_witness :
  executed (session_after citing_dataset one_publication_session) =
  executed one_publication_session
  ++ match aiod_citations citing_dataset with
     | CitationIds ids =>
         if decide (ids = ∅) then [] else [mkSelect ClsOrmPublication ids]
     | CitationRecords _ => []
     end
  ++ (if decide (aiod_has_parts citing_dataset = ∅) then []
      else [mkSelect ClsOrmDataset (aiod_has_parts citing_dataset)])
  ++ (if decide (aiod_is_part citing_dataset = ∅) then []
      else [mkSelect ClsOrmDataset (aiod_is_part citing_dataset)]).
Proof.
  apply (aiod_to_orm_statements citing_dataset one_publication_session _
           (converted citing_dataset one_publication_session)).
  vm_compute. reflexivity.
Defined.

Lemma citation_rows_rows_of aiod s :
  citations_resolve aiod s →
  rows_of s (citation_ids aiod) (citation_rows aiod s)
  ∧ length (citation_rows aiod s) = size (citation_ids aiod)
  ∧ ∀ r, r ∈ citation_rows aiod s → rel_cls r = ClsOrmPublication.
Proof.
  unfold citations_resolve, citation_ids, citation_rows.
  destruct (aiod_citations aiod) as [ids|records].
  - intros Hres. split_and!.
    + apply (select_rows_rows_of s (mkSelect ClsOrmPublication ids) Hres).
    + by apply (select_rows_complete s (mkSelect ClsOrmPublication ids)).
    + intros r Hr. by apply select_rows_cls in Hr.
  - intros _. split_and!.
    + split; [intros x Hx; by apply elem_of_empty in Hx
             | intros r Hr; by apply elem_of_nil in Hr].
    + by rewrite size_empty.
    + intros r Hr. by apply elem_of_nil in Hr.
Qed.

(** X8. The record of a conversion that returns links, for each of
    has_parts, is_part and the citations given as identifiers, one row per
    identifier and none besides: every identifier of the field is read as the
    key of one of the rows, the key of every row is what one of the
    identifiers is read as, and there are as many rows as identifiers. *)
Theorem aiod_to_orm_links_requested_rows
    (aiod : AIoDDataset) (s s' : Session) (orm : OrmDataset) :
  aiod_to_orm aiod s = (inr orm, s') →
  rows_of s (aiod_has_parts aiod) (orm_has_parts orm)
  ∧ length (orm_has_parts orm) = size (aiod_has_parts aiod)
  ∧ rows_of s (aiod_is_part aiod) (orm_is_part orm)
  ∧ length (orm_is_part orm) = size (aiod_is_part aiod)
  ∧ rows_of s (citation_ids aiod) (orm_citations orm)
  ∧ length (orm_citations orm) = size (citation_ids aiod)
  ∧ (∀ r, r ∈ orm_has_parts orm ++ orm_is_part orm → rel_cls r = ClsOrmDataset)
  ∧ (∀ r, r ∈ orm_citations orm → rel_cls r = ClsOrmPublication).
Proof.
  intros ((Hc & Hhp & Hip) & -> & _)%aiod_to_orm_inr.
  unfold converted.
  cbn [orm_has_parts orm_is_part orm_citations].
  destruct (citation_rows_rows_of aiod s Hc) as (Hrows & Hlen & Hcls).
  split_and!.
  - apply (select_rows_rows_of s (mkSelect ClsOrmDataset (aiod_has_parts aiod)) Hhp).
  - by apply (select_rows_complete s (mkSelect ClsOrmDataset (aiod_has_parts aiod))).
  - apply (select_rows_rows_of s (mkSelect ClsOrmDataset (aiod_is_part aiod)) Hip).
  - by apply (select_rows_complete s (mkSelect ClsOrmDataset (aiod_is_part aiod))).
  - exact Hrows.
  - exact Hlen.
  - intros r [Hr|Hr]%elem_of_app; by apply select_rows_cls in Hr.
  - exact Hcls.
Qed.

Lemma aiod_to_orm_links_requested_rows_witness :
  let orm := converted citing_dataset_01 one_publication_session in
  rows_of one_publication_session (aiod_has_parts citing_dataset_01)
    (orm_has_parts orm)
  ∧ length (orm_has_parts orm) = size (aiod_has_parts citing_dataset_01)
  ∧ rows_of one_publication_session (aiod_is_part citing_dataset_01)
      (orm_is_part orm)
  ∧ length (orm_is_part orm) = size (aiod_is_part citing_dataset_01)
  ∧ rows_of one_publication_session (citation_ids citing_dataset_01)
      (orm_citations orm)
  ∧ length (orm_citations orm) = size (citation_ids citing_dataset_01)
  ∧ (∀ r, r ∈ orm_has_parts orm ++ orm_is_part orm → rel_cls r = ClsOrmDataset)
  ∧ (∀ r, r ∈ orm_citations orm → rel_cls r = ClsOrmPublication).
Proof.
  apply (aiod_to_orm_links_requested_rows citing_dataset_01
           one_publication_session
           (session_after citing_dataset_01 one_publication_session)).
  vm_compute. reflexivity.
Defined.

(** X9. A conversion that returns keeps the identifier the caller supplied,
    also when there is none, and turns the distributions into downloads one
    for one, in their order and with repetitions kept. *)
Theorem aiod_to_orm_keeps_identifier_and_distributions
    (aiod : AIoDDataset) (s s' : Session) (orm : OrmDataset) :
  aiod_to_orm aiod s = (inr orm, s') →
  orm_id orm = aiod_id aiod
  ∧ length (orm_distributions orm) = length (aiod_distributions aiod)
  ∧ ∀ i d, aiod_distributions aiod !! i = Some d →
           orm_distributions orm !! i
           = Some (mkOrmDataDownload
                     (distr_content_url d) (distr_content_size_kb d)
                     (distr_description d) (distr_name d)
                     (distr_encoding_format d)).
Proof.
  intros (_ & -> & _)%aiod_to_orm_inr. unfold converted.
  cbn [orm_id orm_distributions]. split_and!.
  - done.
  - by rewrite length_fmap.
  - intros i d Hd. by rewrite list_lookup_fmap, Hd.
Qed.

Lemma aiod_to_orm_keeps_identifier_and_distributions_witness :
  let orm := converted citing_dataset one_publication_session in
  orm_id orm = aiod_id citing_dataset
  ∧ length (orm_distributions orm) = length (aiod_distributions citing_dataset)
  ∧ ∀ i d, aiod_distributions citing_dataset !! i = Some d →
           orm_distributions orm !! i
           = Some (mkOrmDataDownload
                     (distr_content_url d) (distr_content_size_kb d)
                     (distr_description d) (distr_name d)
                     (distr_encoding_format d)).
Proof.
  apply (aiod_to_orm_keeps_identifier_and_distributions citing_dataset
           one_publication_session
           (session_after citing_dataset one_publication_session)).
  vm_compute. reflexivity.
Defined.

(** X10. Whether it returns or raises, a conversion writes neither the
    datasets nor the publications: the record it builds is not persisted by
    it, and no publication is created. *)
Theorem aiod_to_orm_leaves_datasets_and_publications
    (aiod : AIoDDataset) (s : Session) :
  datasets (aiod_to_orm aiod s).2 = datasets s
  ∧ publications (aiod_to_orm aiod s).2 = publications s.
Proof.
  destruct (decide (resolvable aiod s)) as [Hr|Hr].
  - by rewrite aiod_to_orm_resolvable.
  - destruct (aiod_to_orm_unresolvable aiod s Hr)
      as (l & s' & -> & Hd & Hp & _). done.
Qed.

(** ** The constraints of [AIoDDataset] and [AIoDDistribution] *)

(** X11. Validation of a dataset succeeds exactly when the five required
    strings are given and within 5000, 150, 30, 250 and 150 characters;
    creator, spatial_coverage, version and license, when given, are within
    150, 500, 150 and 150, and issn, when given, has 8 characters; the
    publications embedded as citations have title and url within 250 when
    given; and every distribution has its content_url within 150 and its
    description, name and encoding_format, when given, within 5000, 150 and
    150. *)
Theorem validation_accepts_iff (raw : RawDataset) :
  (∃ aiod, AIoDDataset_init raw = inr aiod)
  ↔ given_within 5000 (raw_description raw)
    ∧ given_within 150 (raw_name raw)
    ∧ given_within 30 (raw_node raw)
    ∧ given_within 250 (raw_node_specific_identifier raw)
    ∧ given_within 150 (raw_same_as raw)
    ∧ within 150 (raw_creator raw)
    ∧ (∀ x, raw_issn raw = Some x → String.length x = 8)
    ∧ within 500 (raw_spatial_coverage raw)
    ∧ within 150 (raw_version raw)
    ∧ within 150 (raw_license raw)
    ∧ (∀ records, raw_citations raw = RawCitationRecords records →
         Forall (λ p, within 250 (publ_title p) ∧ within 250 (publ_url p))
                records)
    ∧ Forall (λ d, String.length (distr_content_url d) ≤ 150
                   ∧ within 5000 (distr_description d)
                   ∧ within 150 (distr_name d)
                   ∧ within 150 (distr_encoding_format d))
             (raw_distributions raw).
Proof.
  assert (citations_within (raw_citations raw) ↔
          ∀ records, raw_citations raw = RawCitationRecords records →
            Forall (λ p, within 250 (publ_title p) ∧ within 250 (publ_url p))
                   records) as Hcit.
  { destruct (raw_citations raw) as [values|records]; simpl.
    - split; [by intros _ records [=] | done].
    - split; [by intros H records' [= <-] | eauto]. }
  pose proof (dataset_errors_nil_iff raw) as Hnil.
  split.
  - intros [aiod Hinit].
    destruct (decide (dataset_errors raw = [])) as [Herr|Herr];
      [|by rewrite (AIoDDataset_init_cons raw Herr) in Hinit].
    apply Hnil in Herr. rewrite Hcit in Herr. exact Herr.
  - intros Hlim.
    assert (dataset_errors raw = []) as Herr.
    { apply Hnil. rewrite Hcit. exact Hlim. }
    rewrite (AIoDDataset_init_nil raw Herr). eauto.
Qed.

(** A body with a content_url of 200 characters in its second distribution,
    and one with an embedded publication whose title has 251: both are
    rejected, with the entries under the paths of the objects. *)
Example nested_violations_reported :
  AIoDDataset_init
    (mkRawDataset None (Some "description") (Some "dset") (Some "openml")
       (Some "1") (Some "url")
       None None None None None None None None None None None None
       [] [] [] (RawCitationValues [])
       [mkAIoDDistribution "https://example.org/data" None None None None;
        mkAIoDDistribution (str_mul "u" 200) None None None None] [] [])
  = inl (ValidationError
           [mkErrorEntry [PyStr "distributions"; PyInt 1; PyStr "content_url"]
              "ensure this value has at most 150 characters"
              "value_error.any_str.max_length" (Some 150)])
  ∧ AIoDDataset_init
      (mkRawDataset None (Some "description") (Some "dset") (Some "openml")
         (Some "1") (Some "url")
         None None None None None None None None None None None None
         [] [] []
         (RawCitationRecords [mkAIoDPublication None (Some (str_mul "t" 251)) None])
         [] [] [])
    = inl (ValidationError
             [mkErrorEntry [PyStr "citations"; PyInt 0]
                "str type expected" "type_error.str" None;
              mkErrorEntry [PyStr "citations"; PyInt 0; PyStr "title"]
                "ensure this value has at most 250 characters"
                "value_error.any_str.max_length" (Some 250)]).
Proof. split; by vm_compute. Qed.

Lemma check_length_paths field lo hi v :
  loc <$> check_length field lo hi v `sublist_of` [[PyStr field]].
Proof.
  unfold check_length.
  destruct lo, hi; repeat case_bool_decide; simpl;
    first [reflexivity | apply sublist_nil_l].
Qed.

Lemma check_required_paths field hi v :
  loc <$> check_required field hi v `sublist_of` [[PyStr field]].
Proof. destruct v; [apply check_length_paths | reflexivity]. Qed.

Lemma check_optional_paths field lo hi v :
  loc <$> check_optional field lo hi v `sublist_of` [[PyStr field]].
Proof. destruct v; [apply check_length_paths | apply sublist_nil_l]. Qed.

(** ** The paths of a report *)

Lemma distribution_errors_paths d :
  loc <$> distribution_errors d `sublist_of`
  [[PyStr "content_url"]; [PyStr "description"]; [PyStr "name"];
   [PyStr "encoding_format"]].
Proof.
  unfold distribution_errors. rewrite !fmap_app.
  apply (sublist_app _ [_]); [apply check_length_paths|].
  apply (sublist_app _ [_]); [apply check_optional_paths|].
  apply (sublist_app _ [_]); apply check_optional_paths.
Qed.

Lemma publication_errors_paths title url :
  loc <$> publication_errors title url `sublist_of`
  [[PyStr "title"]; [PyStr "url"]].
Proof.
  unfold publication_errors. rewrite !fmap_app.
  apply (sublist_app _ [_]); apply check_optional_paths.
Qed.

Lemma loc_nested path (es : list ErrorEntry) :
  loc <$> (nested path <$> es) = (path ++.) <$> (loc <$> es).
Proof. rewrite <- !list_fmap_compose. by apply list_fmap_ext. Qed.

(** The entries of the objects of a list field are under the name of the
    field and the index of their object. *)
Lemma list_errors_paths {A} field (errors : A → list ErrorEntry) i l x :
  x ∈ loc <$> list_errors field errors i l →
  ∃ k a p, l !! k = Some a ∧ p ∈ loc <$> errors a
           ∧ x = PyStr field :: PyInt (Z.of_nat (i + k)) :: p.
Proof.
  revert i. induction l as [|a l IH]; intros i; [by intros ?%elem_of_nil|].
  cbn [list_errors]. rewrite fmap_app, loc_nested, elem_of_app.
  intros [(p & -> & Hp)%list_elem_of_fmap | Hx].
  - exists 0, a, p. split_and!; [done..|]. by rewrite Nat.add_0_r.
  - destruct (IH (S i) Hx) as (k & a' & p & Hk & Hp & ->).
    exists (S k), a', p. split_and!; [done..|].
    by rewrite Nat.add_succ_r.
Qed.

Lemma list_errors_NoDup {A} field (errors : A → list ErrorEntry) i l :
  (∀ a, NoDup (loc <$> errors a)) →
  NoDup (loc <$> list_errors field errors i l).
Proof.
  intros Hnd. revert i. induction l as [|a l IH]; intros i;
    [apply NoDup_nil_2|].
  cbn [list_errors]. rewrite fmap_app, loc_nested. apply NoDup_app.
  split_and!.
  - apply NoDup_fmap_2; [|done]. intros p q Hpq. by simplify_list_eq.
  - intros x (p & -> & _)%list_elem_of_fmap Hx.
    apply list_errors_paths in Hx as (k & _ & q & _ & _ & Heq).
    simplify_list_eq. lia.
  - apply IH.
Qed.

Lemma citations_errors_paths c x :
  x ∈ loc <$> citations_errors c →
  ∃ k rest, x = PyStr "citations" :: PyInt (Z.of_nat k) :: rest.
Proof.
  destruct c as [values|records]; [by intros ?%elem_of_nil|].
  unfold citations_errors.
  destruct (list_errors _ _ 0 records) as [|e es] eqn:Hnested;
    [by intros ?%elem_of_nil|].
  rewrite fmap_app, elem_of_app, <- list_fmap_compose.
  intros [(k & -> & _)%list_elem_of_fmap | Hx].
  - by exists k, [].
  - rewrite <- Hnested in Hx.
    apply list_errors_paths in Hx as (k & _ & p & _ & _ & ->). eauto.
Qed.

Lemma citations_errors_NoDup c : NoDup (loc <$> citations_errors c).
Proof.
  destruct c as [values|records]; [apply NoDup_nil_2|].
  unfold citations_errors.
  destruct (list_errors _ _ 0 records) as [|e es] eqn:Hnested;
    [apply NoDup_nil_2|].
  rewrite fmap_app, <- list_fmap_compose, <- Hnested. apply NoDup_app.
  split_and!.
  - apply NoDup_fmap_2; [|apply NoDup_seq].
    intros i j Hij. simpl in Hij. by simplify_eq.
  - intros x (k & -> & _)%list_elem_of_fmap Hx.
    apply list_errors_paths in Hx as (j & p & q & _ & Hq & Heq).
    simpl in Heq. simplify_list_eq.
    pose proof (publication_errors_paths (publ_title p) (publ_url p)) as Hsub.
    apply (elem_of_sublist _ _ [] Hq) in Hsub.
    apply elem_of_cons in Hsub as [|Hsub]; [done|].
    apply elem_of_cons in Hsub as [|Hsub]; [done|].
    by apply elem_of_nil in Hsub.
  - apply list_errors_NoDup. intros p.
    apply (sublist_NoDup _ [[PyStr "title"]; [PyStr "url"]]);
      [|apply publication_errors_paths].
    apply (bool_decide_unpack _). by vm_compute.
Qed.

(** X12. The report of a rejected dataset comes in the order in which the
    fields are declared, and no two of its entries have the same path: first
    the entries of the ten constrained strings, one per field at most; then
    those of the citations, under ["citations"] and the index of a
    publication; then those of the distributions, each under
    ["distributions"], the index of a distribution and one of its fields. *)
Theorem validation_errors_in_field_order (raw : RawDataset) :
  (∃ top,
     dataset_errors raw
     = top ++ citations_errors (raw_citations raw)
           ++ list_errors "distributions" distribution_errors 0
                (raw_distributions raw)
     ∧ loc <$> top `sublist_of` constrained_fields)
  ∧ (∀ e, e ∈ citations_errors (raw_citations raw) →
          ∃ k rest, loc e = PyStr "citations" :: PyInt (Z.of_nat k) :: rest)
  ∧ (∀ e, e ∈ list_errors "distributions" distribution_errors 0
                (raw_distributions raw) →
          ∃ k field,
            loc e = [PyStr "distributions"; PyInt (Z.of_nat k); PyStr field]
            ∧ k < length (raw_distributions raw))
  ∧ NoDup (loc <$> dataset_errors raw).
Proof.
  set (cit := citations_errors (raw_citations raw)).
  set (dist := list_errors "distributions" distribution_errors 0
                 (raw_distributions raw)).
  set (top :=
         check_required "description" 5000 (raw_description raw)
         ++ check_required "name" 150 (raw_name raw)
         ++ check_required "node" 30 (raw_node raw)
         ++ check_required "node_specific_identifier" 250
              (raw_node_specific_identifier raw)
         ++ check_required "same_as" 150 (raw_same_as raw)
         ++ check_optional "creator" None (Some 150) (raw_creator raw)
         ++ check_optional "issn" (Some 8) (Some 8) (raw_issn raw)
         ++ check_optional "spatial_coverage" None (Some 500)
              (raw_spatial_coverage raw)
         ++ check_optional "version" None (Some 150) (raw_version raw)
         ++ check_optional "license" None (Some 150) (raw_license raw)).
  assert (dataset_errors raw = top ++ cit ++ dist) as Heq.
  { unfold dataset_errors, top. by rewrite <- !app_assoc. }
  assert (loc <$> top `sublist_of` constrained_fields) as Htop.
  { unfold top, constrained_fields. rewrite !fmap_app.
    repeat (apply (sublist_app _ [_]);
            [first [apply check_required_paths | apply check_optional_paths]|]).
    apply check_optional_paths. }
  assert (NoDup [[PyStr "content_url"]; [PyStr "description"]; [PyStr "name"];
                 [PyStr "encoding_format"]]) as Hfields
    by (apply (bool_decide_unpack _); by vm_compute).
  assert (∀ x, x ∈ loc <$> dist →
            ∃ k field,
              x = [PyStr "distributions"; PyInt (Z.of_nat k); PyStr field]
              ∧ k < length (raw_distributions raw)) as Hdist.
  { intros x (k & d & p & Hk & Hp & ->)%list_errors_paths.
    apply lookup_lt_Some in Hk.
    pose proof (elem_of_sublist _ _ _ Hp (distribution_errors_paths d)) as Hin.
    repeat (apply elem_of_cons in Hin as [->|Hin]; [by eexists k, _|]).
    by apply elem_of_nil in Hin. }
  split_and!.
  - by exists top.
  - intros e He. apply (citations_errors_paths (raw_citations raw)).
    apply list_elem_of_fmap. eauto.
  - intros e He. apply Hdist, list_elem_of_fmap. eauto.
  - rewrite Heq, !fmap_app. apply NoDup_app. split_and!.
    + apply (sublist_NoDup _ constrained_fields); [|done].
      apply (bool_decide_unpack _). by vm_compute.
    + intros x Hx Hnested.
      apply (λ H, elem_of_sublist _ _ _ H Htop) in Hx.
      assert (∃ name k rest, x = PyStr name :: PyInt k :: rest)
        as (name & k & rest & ->).
      { apply elem_of_app in Hnested as [Hc|Hd].
        - apply citations_errors_paths in Hc as (k & rest & ->). eauto.
        - apply Hdist in Hd as (k & field & -> & _). eauto. }
      unfold constrained_fields in Hx.
      repeat (apply elem_of_cons in Hx as [Hx|Hx]; [discriminate Hx|]).
      by apply elem_of_nil in Hx.
    + apply NoDup_app. split_and!.
      * apply citations_errors_NoDup.
      * intros x (k & rest & ->)%citations_errors_paths
               (k' & field & Hx & _)%Hdist.
        discriminate Hx.
      * apply list_errors_NoDup. intros d.
        apply (sublist_NoDup _ _ Hfields), distribution_errors_paths.
Qed.

(** ** The constraints of [AIoDDistribution] *)

(** X13. A distribution is constructed exactly when its content_url is
    within 150 characters and its description, name and encoding_format,
    when given, are within 5000, 150 and 150; the object then carries the
    five values as they were given. *)
Theorem distribution_accepts_iff
    (content_url : string) (content_size_kb : option Z)
    (description name encoding_format : option string) :
  (AIoDDistribution_init content_url content_size_kb description name
     encoding_format
   = inr (mkAIoDDistribution content_url content_size_kb description name
            encoding_format)
   ↔ String.length content_url ≤ 150
     ∧ within 5000 description ∧ within 150 name ∧ within 150 encoding_format)
  ∧ (∀ d, AIoDDistribution_init content_url content_size_kb description name
            encoding_format = inr d →
          d = mkAIoDDistribution content_url content_size_kb description name
                encoding_format).
Proof.
  unfold AIoDDistribution_init.
  pose proof (distribution_errors_nil_iff
                (mkAIoDDistribution content_url content_size_kb description
                   name encoding_format)) as Hiff.
  unfold distribution_within in Hiff.
  cbn [distr_content_url distr_description distr_name distr_encoding_format]
    in Hiff.
  destruct (distribution_errors _) as [|e es].
  - split; [|by intros d [= <-]]. split; [intros _; by apply Hiff | done].
  - split; [|done]. split; [done|]. intros Hlim. by apply Hiff in Hlim.
Qed.

(** ** [orm_to_aiod]: when it raises and what it returns *)

Lemma distribution_init_of dd :
  AIoDDistribution_init (dd_content_url dd) (dd_content_size_kb dd)
    (dd_description dd) (dd_name dd) (dd_encoding_format dd)
  = match distribution_errors (distribution_of dd) with
    | [] => inr (distribution_of dd)
    | e :: es => inl (ValidationError (e :: es))
    end.
Proof. reflexivity. Qed.

Lemma download_within_limits_iff dd :
  download_within_limits dd ↔ distribution_errors (distribution_of dd) = [].
Proof. symmetry. apply (distribution_errors_nil_iff (distribution_of dd)). Qed.

Lemma downloads_within_limits (l : list OrmDataDownload) :
  Forall download_within_limits l ↔
  Forall distribution_within (distribution_of <$> l).
Proof. by rewrite Forall_fmap. Qed.

Lemma comprehension_cons {A B} (f : A → Exception + B) a l :
  comprehension f (a :: l) =
  match f a with
  | inl e => inl e
  | inr b =>
      match comprehension f l with
      | inl e => inl e
      | inr bs => inr (b :: bs)
      end
  end.
Proof. reflexivity. Qed.

Lemma comprehension_downloads_inr (l : list OrmDataDownload) ds :
  comprehension
    (λ orm_distr,
       AIoDDistribution_init
         (dd_content_url orm_distr)
         (dd_content_size_kb orm_distr)
         (dd_description orm_distr)
         (dd_name orm_distr)
         (dd_encoding_format orm_distr)) l = inr ds
  ↔ Forall download_within_limits l ∧ ds = distribution_of <$> l.
Proof.
  revert ds. induction l as [|dd l IH]; intros ds.
  - simpl. split; [by intros [= <-] | by intros [_ ->]].
  - rewrite comprehension_cons, distribution_init_of, Forall_cons,
      download_within_limits_iff, fmap_cons.
    destruct (distribution_errors (distribution_of dd)) as [|e es].
    + destruct (comprehension _ l) as [e'|bs] eqn:Hl.
      * split; [done|]. intros [[_ Hall] ->].
        by pose proof (proj2 (IH (distribution_of <$> l)) (conj Hall eq_refl)).
      * destruct (proj1 (IH bs) eq_refl) as [Hall ->].
        split; [by intros [= <-] | by intros [_ ->]].
    + split; [done | by intros [[? _] _]].
Qed.

(** The first download outside the limits decides the exception. *)
Lemma comprehension_downloads_inl (good rest : list OrmDataDownload) bad :
  Forall download_within_limits good →
  ¬ download_within_limits bad →
  comprehension
    (λ orm_distr,
       AIoDDistribution_init
         (dd_content_url orm_distr)
         (dd_content_size_kb orm_distr)
         (dd_description orm_distr)
         (dd_name orm_distr)
         (dd_encoding_format orm_distr)) (good ++ bad :: rest)
  = inl (ValidationError (distribution_errors (distribution_of bad))).
Proof.
  intros Hgood Hbad. induction Hgood as [|dd good Hdd Hgood IH].
  - simpl app. rewrite comprehension_cons, distribution_init_of.
    rewrite download_within_limits_iff in Hbad.
    by destruct (distribution_errors (distribution_of bad)).
  - rewrite <- app_comm_cons, comprehension_cons, distribution_init_of.
    apply download_within_limits_iff in Hdd. by rewrite Hdd, IH.
Qed.

Lemma flattened_errors_nil_iff orm ds :
  dataset_errors (flattened orm ds) = [] ↔
  (String.length (orm_description orm) ≤ 5000
   ∧ String.length (orm_name orm) ≤ 150
   ∧ String.length (orm_node orm) ≤ 30
   ∧ String.length (orm_node_specific_identifier orm) ≤ 250
   ∧ String.length (orm_same_as orm) ≤ 150
   ∧ within 150 (orm_creator orm)
   ∧ (∀ x, orm_issn orm = Some x → String.length x = 8)
   ∧ within 500 (orm_spatial_coverage orm)
   ∧ within 150 (orm_version orm)
   ∧ within 150 (row_key <$> orm_license orm))
  ∧ Forall distribution_within ds.
Proof.
  etrans; [apply dataset_errors_nil_iff|].
  unfold flattened, given_within.
  cbn [raw_description raw_name raw_node raw_node_specific_identifier
       raw_same_as raw_creator raw_issn raw_spatial_coverage raw_version
       raw_license raw_citations raw_distributions citations_within].
  split.
  - intros ((d & [= <-] & ?) & (n & [= <-] & ?) & (no & [= <-] & ?)
            & (i & [= <-] & ?) & (sa & [= <-] & ?) & ? & ? & ? & ? & ? & _ & ?).
    by split_and!.
  - intros ((? & ? & ? & ? & ? & ? & ? & ? & ? & ?) & ?).
    split_and!; eauto.
Qed.

(** X14. The flattening of a dataset row raises a validation error exactly
    when the row, or one of its downloads, is outside the limits of the
    schemas; within them it returns a dataset. *)
Theorem orm_to_aiod_succeeds_iff_within_limits (orm : OrmDataset) :
  (∃ aiod, orm_to_aiod orm = inr aiod) ↔ orm_within_limits orm.
Proof.
  rewrite orm_to_aiod_unfold.
  assert (orm_within_limits orm ↔
          (String.length (orm_description orm) ≤ 5000
           ∧ String.length (orm_name orm) ≤ 150
           ∧ String.length (orm_node orm) ≤ 30
           ∧ String.length (orm_node_specific_identifier orm) ≤ 250
           ∧ String.length (orm_same_as orm) ≤ 150
           ∧ within 150 (orm_creator orm)
           ∧ (∀ x, orm_issn orm = Some x → String.length x = 8)
           ∧ within 500 (orm_spatial_coverage orm)
           ∧ within 150 (orm_version orm)
           ∧ within 150 (row_key <$> orm_license orm))
          ∧ Forall download_within_limits (orm_distributions orm)) as ->
    by (unfold orm_within_limits; tauto).
  destruct (comprehension _ (orm_distributions orm)) as [e|ds] eqn:Hds.
  - split; [by intros [aiod ?]|]. intros [_ Hall].
    pose proof (proj2 (comprehension_downloads_inr (orm_distributions orm)
                         (distribution_of <$> orm_distributions orm))
                  (conj Hall eq_refl)) as Hok.
    by rewrite Hok in Hds.
  - apply comprehension_downloads_inr in Hds as [Hall ->].
    pose proof (flattened_errors_nil_iff orm
                  (distribution_of <$> orm_distributions orm)) as Hflat.
    apply downloads_within_limits in Hall.
    split.
    + intros [aiod Hinit].
      destruct (decide (dataset_errors
                  (flattened orm (distribution_of <$> orm_distributions orm))
                = [])) as [Herr|Herr];
        [|by rewrite (AIoDDataset_init_cons _ Herr) in Hinit].
      apply Hflat in Herr as [Hlim _].
      split; [exact Hlim | by apply downloads_within_limits].
    + intros [Hlim _].
      rewrite AIoDDataset_init_nil; [eauto|]. apply Hflat. by split.
Qed.

(** X15. When a download of the row is outside the limits, the exception is
    the validation error of the first such download, with its entries alone:
    what else is wrong with the row, or with later downloads, is not
    reported. *)
Theorem orm_to_aiod_first_invalid_download
    (orm : OrmDataset) (good rest : list OrmDataDownload) (bad : OrmDataDownload) :
  orm_distributions orm = good ++ bad :: rest →
  Forall download_within_limits good →
  ¬ download_within_limits bad →
  orm_to_aiod orm
  = inl (ValidationError (distribution_errors (distribution_of bad))).
Proof.
  intros Hl Hgood Hbad. rewrite orm_to_aiod_unfold, Hl.
  by rewrite comprehension_downloads_inl.
Qed.

Lemma orm_to_aiod_first_invalid_download_witness :
  orm_to_aiod overlong_dataset
  = inl (ValidationError
           (distribution_errors
              (distribution_of
                 (mkOrmDataDownload "https://example.org/more" None None
                    (Some (str_mul "n" 151)) None)))).
Proof.
  apply (orm_to_aiod_first_invalid_download overlong_dataset
           [mkOrmDataDownload "https://example.org/data" None None (Some "csv") None]
           []).
  - reflexivity.
  - apply Forall_singleton. unfold download_within_limits, within. simpl.
    split_and!; [lia | by intros y [=] | | by intros y [=]].
    intros y [= <-]. simpl. lia.
  - intros (_ & _ & Hname & _). specialize (Hname _ eq_refl).
    vm_compute in Hname. lia.
Defined.

Lemma orm_to_aiod_inr (orm : OrmDataset) (aiod : AIoDDataset) :
  orm_to_aiod orm = inr aiod →
  dataset_errors (flattened orm (distribution_of <$> orm_distributions orm)) = []
  ∧ AIoDDataset_init (flattened orm (distribution_of <$> orm_distributions orm))
    = inr aiod.
Proof.
  rewrite orm_to_aiod_unfold.
  destruct (comprehension _ (orm_distributions orm)) as [e|ds] eqn:Hds; [done|].
  apply comprehension_downloads_inr in Hds as [_ ->].
  intros Hinit. split; [|done].
  destruct (decide (dataset_errors
              (flattened orm (distribution_of <$> orm_distributions orm)) = []))
    as [Herr|Herr]; [done|].
  by rewrite (AIoDDataset_init_cons _ Herr) in Hinit.
Qed.

(** X16. What the flattening returns: the identifier of the row; the license
    by its name; has_parts, is_part and citations as the sets of the keys of
    the related rows in decimal, the citations never as embedded records;
    alternate names and keywords as the sets of the names of their rows, so
    that rows of one name give one element; the downloads and the measured
    values one for one, in their order. *)
Theorem orm_to_aiod_flattens (orm : OrmDataset) (aiod : AIoDDataset) :
  orm_to_aiod orm = inr aiod →
  aiod_id aiod = orm_id orm
  ∧ aiod_license aiod = row_key <$> orm_license orm
  ∧ aiod_has_parts aiod = list_to_set (pretty <$> (rel_id <$> orm_has_parts orm))
  ∧ aiod_is_part aiod = list_to_set (pretty <$> (rel_id <$> orm_is_part orm))
  ∧ aiod_citations aiod
    = CitationIds (list_to_set (pretty <$> (rel_id <$> orm_citations orm)))
  ∧ aiod_alternate_names aiod = list_to_set (row_key <$> orm_alternate_names orm)
  ∧ aiod_keywords aiod = list_to_set (row_key <$> orm_keywords orm)
  ∧ aiod_distributions aiod = distribution_of <$> orm_distributions orm
  ∧ aiod_measured_values aiod
    = (λ mv, mkAIoDMeasurementValue (row_key mv).1 (row_key mv).2)
        <$> orm_measured_values orm.
Proof.
  rewrite orm_to_aiod_unfold.
  destruct (comprehension _ (orm_distributions orm)) as [e|ds] eqn:Hds; [done|].
  apply comprehension_downloads_inr in Hds as [_ ->].
  unfold AIoDDataset_init. destruct (dataset_errors _); [|done].
  intros [= <-]. cbn -[set_of_str].
  rewrite !set_of_str_related.
  assert (∀ l : list (Row string),
            set_of_str ((PyStr ∘ row_key) <$> l) = list_to_set (row_key <$> l))
    as Hnames.
  { intros l. unfold set_of_str. f_equal. rewrite <- list_fmap_compose.
    by apply list_fmap_ext. }
  by rewrite !Hnames.
Qed.

Lemma orm_to_aiod_flattens_witness :
  ∃ aiod,
    orm_to_aiod stored_dataset = inr aiod
    ∧ aiod_id aiod = orm_id stored_dataset
    ∧ aiod_license aiod = row_key <$> orm_license stored_dataset
    ∧ aiod_has_parts aiod
      = list_to_set (pretty <$> (rel_id <$> orm_has_parts stored_dataset))
    ∧ aiod_is_part aiod
      = list_to_set (pretty <$> (rel_id <$> orm_is_part stored_dataset))
    ∧ aiod_citations aiod
      = CitationIds
          (list_to_set (pretty <$> (rel_id <$> orm_citations stored_dataset)))
    ∧ aiod_alternate_names aiod
      = list_to_set (row_key <$> orm_alternate_names stored_dataset)
    ∧ aiod_keywords aiod = list_to_set (row_key <$> orm_keywords stored_dataset)
    ∧ aiod_distributions aiod
      = distribution_of <$> orm_distributions stored_dataset
    ∧ aiod_measured_values aiod
      = (λ mv, mkAIoDMeasurementValue (row_key mv).1 (row_key mv).2)
          <$> orm_measured_values stored_dataset.
Proof.
  eexists. split; [vm_compute; reflexivity|].
  apply (orm_to_aiod_flattens stored_dataset). vm_compute. reflexivity.
Defined.

(** ** From a row to a dataset and back *)

(** Resolving the keys of rows that are stored gives those rows back. *)
Lemma select_rows_of_rows s cls (rows : list Related) :
  NoDup rows → rows_stored s cls rows →
  resolves s (mkSelect cls (list_to_set (pretty <$> (rel_id <$> rows))))
  ∧ select_rows s (mkSelect cls (list_to_set (pretty <$> (rel_id <$> rows))))
    ≡ₚ rows.
Proof.
  intros Hnd Hst.
  assert (∀ x, x ∈ (list_to_set (pretty <$> (rel_id <$> rows)) : gset string) ↔
               ∃ r, r ∈ rows ∧ x = pretty (rel_id r)) as Hids.
  { intros x. rewrite elem_of_list_to_set, list_elem_of_fmap. split.
    - intros (i & -> & (r & -> & Hr)%list_elem_of_fmap). eauto.
    - intros (r & Hr & ->). exists (rel_id r). split; [done|].
      apply list_elem_of_fmap. eauto. }
  split; [split|].
  - intros x (r & Hr & ->)%Hids. exists (rel_id r).
    split; [by apply Hst | apply reads_pretty].
  - intros x (r & Hr & ->)%Hids y (r' & Hr' & ->)%Hids.
    rewrite !reads_pretty. by intros [= ->].
  - apply NoDup_Permutation; [|done|].
    + eapply NoDup_fmap_1, select_rows_NoDup.
    + intros r. rewrite elem_of_select_rows. simpl. split.
      * intros (Hcls & _ & x & (r' & Hr' & ->)%Hids & Hread).
        rewrite reads_pretty in Hread. injection Hread as Hid.
        assert (r = r') as ->; [|done].
        apply related_eq; [|done]. destruct (Hst r' Hr') as [-> _]. done.
      * intros Hr. destruct (Hst r Hr) as [Hcls Hin]. split_and!; [done..|].
        exists (pretty (rel_id r)). split; [|apply reads_pretty].
        apply Hids. eauto.
Qed.

(** X17. From a row to a dataset and back: when the flattening of a row
    returns a dataset, and the rows the row is related to are stored and
    occur once each, converting that dataset returns a row with the same
    identifier, the same scalar fields and downloads, and the same related
    rows up to their order. *)
Theorem flatten_then_convert
    (orm : OrmDataset) (aiod : AIoDDataset) (s : Session) :
  orm_to_aiod orm = inr aiod →
  NoDup (orm_has_parts orm) → rows_stored s ClsOrmDataset (orm_has_parts orm) →
  NoDup (orm_is_part orm) → rows_stored s ClsOrmDataset (orm_is_part orm) →
  NoDup (orm_citations orm) → rows_stored s ClsOrmPublication (orm_citations orm) →
  ∃ back s',
    aiod_to_orm aiod s = (inr back, s')
    ∧ orm_id back = orm_id orm
    ∧ orm_has_parts back ≡ₚ orm_has_parts orm
    ∧ orm_is_part back ≡ₚ orm_is_part orm
    ∧ orm_citations back ≡ₚ orm_citations orm
    ∧ orm_distributions back = orm_distributions orm
    ∧ orm_description back = orm_description orm
    ∧ orm_name back = orm_name orm
    ∧ orm_node back = orm_node orm
    ∧ orm_node_specific_identifier back = orm_node_specific_identifier orm
    ∧ orm_same_as back = orm_same_as orm.
Proof.
  intros Hflat Hnhp Hshp Hnip Hsip Hnc Hsc.
  destruct (orm_to_aiod_inr orm aiod Hflat) as [Herr Haiod].
  rewrite (AIoDDataset_init_nil _ Herr) in Haiod. injection Haiod as Haiod.
  destruct (select_rows_of_rows s _ _ Hnhp Hshp) as [Hmhp Hphp].
  destruct (select_rows_of_rows s _ _ Hnip Hsip) as [Hmip Hpip].
  destruct (select_rows_of_rows s _ _ Hnc Hsc) as [Hmc Hpc].
  rewrite <- set_of_str_related in Hmhp, Hphp, Hmip, Hpip, Hmc, Hpc.
  assert (resolvable aiod s) as Hres.
  { unfold resolvable, citations_resolve. by rewrite <- Haiod. }
  exists (converted aiod s), (session_after aiod s).
  split; [by apply aiod_to_orm_resolvable|].
  unfold converted, citation_rows. rewrite <- Haiod.
  cbn [orm_id orm_has_parts orm_is_part orm_citations orm_distributions
       orm_description orm_name orm_node orm_node_specific_identifier
       orm_same_as aiod_id aiod_has_parts aiod_is_part aiod_citations
       aiod_distributions aiod_description aiod_name aiod_node
       aiod_node_specific_identifier aiod_same_as flattened
       raw_id raw_has_parts raw_is_part raw_citations raw_distributions
       raw_description raw_name raw_node raw_node_specific_identifier
       raw_same_as validate_citations default].
  split_and!; try done.
  rewrite <- list_fmap_compose.
  rewrite <- (list_fmap_id (orm_distributions orm)) at 2.
  apply list_fmap_ext. by intros i [] _.
Qed.

Lemma flatten_then_convert_witness :
  ∃ back s',
    aiod_to_orm stored_dataset_flat one_dataset_session = (inr back, s')
    ∧ orm_id back = orm_id stored_dataset
    ∧ orm_has_parts back ≡ₚ orm_has_parts stored_dataset
    ∧ orm_is_part back ≡ₚ orm_is_part stored_dataset
    ∧ orm_citations back ≡ₚ orm_citations stored_dataset
    ∧ orm_distributions back = orm_distributions stored_dataset
    ∧ orm_description back = orm_description stored_dataset
    ∧ orm_name back = orm_name stored_dataset
    ∧ orm_node back = orm_node stored_dataset
    ∧ orm_node_specific_identifier back
      = orm_node_specific_identifier stored_dataset
    ∧ orm_same_as back = orm_same_as stored_dataset.
Proof.
  apply (flatten_then_convert stored_dataset stored_dataset_flat
           one_dataset_session).
  - vm_compute. reflexivity.
  - apply NoDup_singleton.
  - intros r Hr. apply list_elem_of_singleton in Hr as ->. split; [reflexivity|].
    apply (bool_decide_unpack _). vm_compute. reflexivity.
  - apply NoDup_nil_2.
  - intros r Hr. by apply elem_of_nil in Hr.
  - apply NoDup_nil_2.
  - intros r Hr. by apply elem_of_nil in Hr.
Defined.

(** ** Validating what was validated *)

Lemma set_of_str_dump (X : gset string) :
  set_of_str (PyStr <$> elements X) = X.
Proof.
  unfold set_of_str. rewrite <- list_fmap_compose.
  assert (∀ l : list string, (py_str ∘ PyStr) <$> l = l) as ->
    by (intros l; apply list_fmap_id).
  apply list_to_set_elements_L.
Qed.

(** X18. Validation is idempotent through [dump]: a dataset that validation
    returned, written out as keyword arguments and validated again, is
    returned unchanged. *)
Theorem validation_of_dump (raw : RawDataset) (aiod : AIoDDataset) :
  AIoDDataset_init raw = inr aiod →
  AIoDDataset_init (dump aiod) = inr aiod.
Proof.
  intros Hinit.
  destruct (decide (dataset_errors raw = [])) as [Herr|Herr];
    [|by rewrite (AIoDDataset_init_cons raw Herr) in Hinit].
  rewrite (AIoDDataset_init_nil raw Herr) in Hinit. injection Hinit as <-.
  apply dataset_errors_nil_iff in Herr
    as ((d & Hd & ?) & (n & Hn & ?) & (no & Hno & ?) & (i & Hi & ?)
        & (sa & Hsa & ?) & ? & ? & ? & ? & ? & Hcit & ?).
  rewrite Hd, Hn, Hno, Hi, Hsa. cbn [default].
  rewrite AIoDDataset_init_nil.
  - unfold dump.
    cbn [raw_id raw_description raw_name raw_node raw_node_specific_identifier
         raw_same_as raw_creator raw_date_modified raw_date_published
         raw_funder raw_is_accessible_for_free raw_issn raw_size
         raw_spatial_coverage raw_temporal_coverage_from
         raw_temporal_coverage_to raw_version raw_license raw_has_parts
         raw_is_part raw_alternate_names raw_citations raw_distributions
         raw_keywords raw_measured_values
         aiod_id aiod_description aiod_name aiod_node
         aiod_node_specific_identifier aiod_same_as aiod_creator
         aiod_date_modified aiod_date_published aiod_funder
         aiod_is_accessible_for_free aiod_issn aiod_size
         aiod_spatial_coverage aiod_temporal_coverage_from
         aiod_temporal_coverage_to aiod_version aiod_license aiod_has_parts
         aiod_is_part aiod_alternate_names aiod_citations aiod_distributions
         aiod_keywords aiod_measured_values default].
    rewrite !set_of_str_dump. f_equal. f_equal.
    destruct (raw_citations raw) as [values|[|p ps]]; simpl.
    + by rewrite set_of_str_dump.
    + by rewrite elements_empty.
    + done.
  - apply dataset_errors_nil_iff. unfold dump, given_within.
    cbn [raw_description raw_name raw_node raw_node_specific_identifier
         raw_same_as raw_creator raw_issn raw_spatial_coverage raw_version
         raw_license raw_citations raw_distributions
         aiod_description aiod_name aiod_node aiod_node_specific_identifier
         aiod_same_as aiod_creator aiod_issn aiod_spatial_coverage
         aiod_version aiod_license aiod_citations aiod_distributions].
    split_and!; eauto.
    destruct (raw_citations raw) as [values|[|p ps]]; simpl; done.
Qed.

Lemma validation_of_dump_witness :
  AIoDDataset_init (dump stored_dataset_flat) = inr stored_dataset_flat.
Proof.
  apply (validation_of_dump
           (flattened stored_dataset
              (distribution_of <$> orm_distributions stored_dataset))).
  vm_compute. reflexivity.
Defined.

(** ** The other schemas *)

Lemma construct_inr {A} (errors : list ErrorEntry) (a b : A) :
  construct errors a = inr b ↔ errors = [] ∧ b = a.
Proof.
  unfold construct. destruct errors as [|e es].
  - split; [by intros [= <-] | by intros [_ ->]].
  - split; [done | by intros [? _]].
Qed.

Lemma construct_inl {A} (errors : list ErrorEntry) (a : A) e :
  construct errors a = inl e ↔ errors ≠ [] ∧ e = ValidationError errors.
Proof.
  unfold construct. destruct errors as [|e' es].
  - split; [done | by intros [? _]].
  - split; [by intros [= <-] | by intros [_ ->]].
Qed.

Lemma check_given_iff {A} field (v : option A) :
  check_given field v = [] ↔ is_Some v.
Proof.
  destruct v; simpl; split; done.
Qed.

Lemma check_given_paths {A} field (v : option A) :
  loc <$> check_given field v `sublist_of` [[PyStr field]].
Proof. destruct v; [apply sublist_nil_l | reflexivity]. Qed.

(** X19. A news item is constructed exactly when title, body, headline and
    section are given and within 500, 2000, 500 and 500 characters,
    date_modified and word_count are given, and alternative_headline, when
    given, is within 500; otherwise the exception carries the errors of all
    fields, one per field at most and in the order of the fields. *)
Theorem news_accepts_iff (raw : RawNews) :
  ((∃ news, News_init raw = inr news)
   ↔ given_within 500 (rn_title raw)
     ∧ is_Some (rn_date_modified raw)
     ∧ given_within 2000 (rn_body raw)
     ∧ given_within 500 (rn_headline raw)
     ∧ within 500 (rn_alternative_headline raw)
     ∧ given_within 500 (rn_section raw)
     ∧ is_Some (rn_word_count raw))
  ∧ (∀ e, News_init raw = inl e →
          e = ValidationError (news_errors raw)
          ∧ loc <$> news_errors raw `sublist_of` news_fields
          ∧ 0 < length (news_errors raw) ≤ 7).
Proof.
  split.
  - assert (news_errors raw = [] ↔
            given_within 500 (rn_title raw)
            ∧ is_Some (rn_date_modified raw)
            ∧ given_within 2000 (rn_body raw)
            ∧ given_within 500 (rn_headline raw)
            ∧ within 500 (rn_alternative_headline raw)
            ∧ given_within 500 (rn_section raw)
            ∧ is_Some (rn_word_count raw)) as <-.
    { unfold news_errors. split.
      - intros H.
        apply app_nil in H as [H1 H]. apply app_nil in H as [H2 H].
        apply app_nil in H as [H3 H]. apply app_nil in H as [H4 H].
        apply app_nil in H as [H5 H]. apply app_nil in H as [H6 H7].
        apply check_required_iff in H1, H3, H4, H6.
        apply check_given_iff in H2, H7.
        apply check_optional_max_iff in H5. done.
      - intros (H1 & H2 & H3 & H4 & H5 & H6 & H7).
        apply (check_required_iff "title") in H1.
        apply (check_given_iff "date_modified") in H2.
        apply (check_required_iff "body") in H3.
        apply (check_required_iff "headline") in H4.
        apply (check_optional_max_iff "alternative_headline") in H5.
        apply (check_required_iff "section") in H6.
        apply (check_given_iff "word_count") in H7.
        by rewrite H1, H2, H3, H4, H5, H6, H7. }
    unfold News_init. split.
    + intros [news Hnews]. by apply construct_inr in Hnews as [? _].
    + intros ->. eauto.
  - intros e [Hne ->]%construct_inl.
    assert (loc <$> news_errors raw `sublist_of` news_fields) as Hsub.
    { unfold news_errors, news_fields. rewrite !fmap_app.
      repeat (apply (sublist_app _ [_]);
              [first [apply check_required_paths | apply check_optional_paths
                     | apply check_given_paths]|]).
      apply check_given_paths. }
    split_and!; [done..| |].
    + destruct (news_errors raw); [done | simpl; lia].
    + apply sublist_length in Hsub. by rewrite length_fmap in Hsub.
Qed.

(** X20. The small schemas: a tag needs its tag within 250 characters, a
    business category and a news category their category within 250, and a
    publication its title and url, when given, within 250 each; each is
    constructed exactly then, with the values as given. *)
Theorem small_schemas_accept_iff
    (text : option string) (title url : option string) (id parent_id : option Z) :
  ((∃ t, Tag_init text id = inr t) ↔ given_within 250 text)
  ∧ ((∃ c, BusinessCategory_init text id = inr c) ↔ given_within 250 text)
  ∧ ((∃ c, NewsCategory_init text parent_id id = inr c) ↔ given_within 250 text)
  ∧ (AIoDPublication_init id title url = inr (mkAIoDPublication id title url)
     ↔ within 250 title ∧ within 250 url)
  ∧ (∀ x, text = Some x → String.length x ≤ 250 →
          Tag_init text id = inr (mkTag x id)
          ∧ BusinessCategory_init text id = inr (mkBusinessCategory x id)
          ∧ NewsCategory_init text parent_id id
            = inr (mkNewsCategory x parent_id id)).
Proof.
  unfold Tag_init, BusinessCategory_init, NewsCategory_init,
    AIoDPublication_init, publication_errors.
  split_and!.
  - rewrite <- check_required_iff. split.
    + intros [t Ht]. by apply construct_inr in Ht as [? _].
    + intros ->. eauto.
  - rewrite <- check_required_iff. split.
    + intros [t Ht]. by apply construct_inr in Ht as [? _].
    + intros ->. eauto.
  - rewrite <- check_required_iff. split.
    + intros [t Ht]. by apply construct_inr in Ht as [? _].
    + intros ->. eauto.
  - rewrite construct_inr.
    pose proof (publication_errors_nil_iff title url) as Hiff.
    unfold publication_errors in Hiff. rewrite Hiff. tauto.
  - intros x -> Hlen.
    assert (check_required "tag" 250 (Some x) = []) as ->
      by (apply check_required_iff; by exists x).
    assert (check_required "category" 250 (Some x) = []) as ->
      by (apply check_required_iff; by exists x).
    done.
Qed.

(** The news item of the tests is constructed; without its title and with a
    section of 501 characters, both are reported. *)
Example news_examples :
  (∃ news, News_init news_n1 = inr news)
  ∧ News_init
      (mkRawNews None (Some 1679356800%Z) (Some "b1") (Some "h1") None
         (Some (str_mul "s" 501)) (Some 10%Z) None None None None None None)
    = inl (ValidationError [missing_error "title"; max_length_error "section" 500]).
Proof. split; [by eexists | by vm_compute]. Qed.
